(** * US Trade Monitor (Task_1.py): fetch, reconcile, join

    A shallow embedding of the data pipeline of [Task_1.py]:
    - [get_tariff_data], the static tariff table;
    - the body of [get_census_trade_data]: two requests, the header-driven
      construction of the two frames, the outer merge on [CTY_CODE], [fillna],
      the balance column, the title-cased and remapped country names;
    - the [st.cache_data(ttl=3600)] wrapper around it;
    - the main script: the [df_trade.empty] guard and the left merge on
      [Country Name] with its three [fillna(0)].

    Conventions.  In the pipeline Python [str] is modelled by [string]:
    one-byte characters with the ASCII case mapping, which covers the
    upper-case ASCII names the Census tables carry.  [Unicode.title] is
    [str.title] on code points with the Unicode case tables as parameters;
    on a name of ASCII characters it is the pipeline's [Names.title].
    [Names.do_title] is its instance for a fragment of the tables (ASCII and
    U+0130).
    Python [float] is the binary64 primitive [float]; a missing
    value ([None]/[NaN]) is [ONaN] in an object column and a NaN float in a
    float column.  Exceptions are values of [exn] in the monad [result].

    What is taken from the libraries, as they document it:
    - [pd.DataFrame(rows, columns=header)] pads short rows and refuses a
      column count that differs from the header's;
    - [pd.merge(how="outer")] orders the union of the keys lexicographically,
      [pd.merge(how="left")] keeps the order of the left rows; both repeat a
      row once per matching row of the other side;
    - [.str] is refused on a column that holds no string, and [.str.title()]
      gives NaN on a cell that is not a string;
    - [pd.to_numeric] on one string is a parameter, [str_to_float];
    - [st.cache_data(ttl=...)] keys an entry by the function and its
      arguments and drops it once [ttl] seconds have passed.
    The plotting calls consume the joined table and are not modelled. *)

From Stdlib Require Import List Bool Ascii String ZArith NArith Lia PeanoNat.
From Stdlib Require Import Permutation Sorted.
From Stdlib Require Import PrimFloat FloatOps SpecFloat.
Import ListNotations.
Local Open Scope string_scope.
Local Open Scope list_scope.

Set Warnings "-inexact-float".

(** ** Exceptions and the error monad of the [try] block *)

Inductive exn : Type :=
| ConnectionError                  (* requests.get could not reach the host *)
| HTTPError (status : Z)           (* raise_for_status on a 4xx/5xx reply *)
| JSONDecodeError                  (* r.json() on a body that is not JSON *)
| TypeError                        (* subscripting a non-array, a repeated label *)
| IndexError                       (* data[0] on an empty array *)
| ValueError                       (* column count mismatch, unparsable number *)
| KeyError (label : string)        (* a column label that the frame lacks *)
| AttributeError.                  (* .str on a column without any string *)

Inductive result (A : Type) : Type :=
| Ok (a : A)
| Raise (e : exn).
Arguments Ok {A} a.
Arguments Raise {A} e.

Definition bind {A B} (m : result A) (k : A -> result B) : result B :=
  match m with
  | Ok a => k a
  | Raise e => Raise e
  end.

Notation "'let*' x ':=' m 'in' k" := (bind m (fun x => k))
  (at level 10, x pattern, m at level 100, k at level 200).

Fixpoint mapM {A B} (f : A -> result B) (l : list A) : result (list B) :=
  match l with
  | [] => Ok []
  | a :: l' =>
      let* b := f a in
      let* bs := mapM f l' in
      Ok (b :: bs)
  end.

Definition is_ok {A} (m : result A) : bool :=
  match m with Ok _ => true | Raise _ => false end.

(** ** Country names: [str.title] and the [name_fixes] table (lines 84-95) *)

Module Names.

Definition is_upper (c : ascii) : bool :=
  (N.leb 65 (N_of_ascii c) && N.leb (N_of_ascii c) 90)%bool.

Definition is_lower (c : ascii) : bool :=
  (N.leb 97 (N_of_ascii c) && N.leb (N_of_ascii c) 122)%bool.

Definition is_cased (c : ascii) : bool := (is_lower c || is_upper c)%bool.

Definition to_upper (c : ascii) : ascii :=
  if is_lower c then ascii_of_N (N_of_ascii c - 32) else c.

Definition to_lower (c : ascii) : ascii :=
  if is_upper c then ascii_of_N (N_of_ascii c + 32) else c.

(** [str.title()] on a name of ASCII characters: a cased character is
    upper-cased when the character before it is not cased (or there is none)
    and lower-cased when it is; the flag is CPython's [previous_is_cased].
    This is the instance the pipeline runs on; on a name with a letter
    outside ASCII, [str.title] follows the Unicode tables, which
    [Unicode.title] below takes as parameters. *)
Fixpoint title_from (previous_is_cased : bool) (s : string) : string :=
  match s with
  | EmptyString => EmptyString
  | String c rest =>
      if is_lower c then
        String (if previous_is_cased then c else to_upper c) (title_from true rest)
      else if is_upper c then
        String (if previous_is_cased then to_lower c else c) (title_from true rest)
      else String c (title_from false rest)
  end.

Definition title (s : string) : string := title_from false s.

(** The dict literal [name_fixes], in source order. *)
Definition name_fixes : list (string * string) :=
  [ ("Korea, South", "South Korea");
    ("United Kingdom", "United Kingdom");
    ("China", "China");
    ("Russian Federation", "Russia");
    ("Vietnam", "Vietnam");
    ("Germany", "Germany") ].

Fixpoint dict_get (d : list (string * string)) (k : string) : option string :=
  match d with
  | [] => None
  | (k', v) :: d' => if String.eqb k' k then Some v else dict_get d' k
  end.

(** [Series.replace(d)] on one string: the value of the key, else the string. *)
Definition replace (d : list (string * string)) (s : string) : string :=
  match dict_get d s with
  | Some v => v
  | None => s
  end.

(** One name through lines 84 and 95. *)
Definition normalize (raw : string) : string := replace name_fixes (title raw).

(** *** [str.title] on code points

    CPython's [do_title] sends each character through the full lower-case or
    title-case mapping, which may give several characters, and takes the
    flag from the character it read.  [title_from] above is its instance on
    one-byte strings.  The tables below are Unicode's on the ASCII range and
    on U+0130 (capital I with dot above: its lower case is i followed by the
    combining dot U+0307, which is not cased); any other code point is left
    as it is and uncased, and the final-sigma rule is left out. *)

Definition cp_is_upper (c : N) : bool := (N.leb 65 c && N.leb c 90)%bool.

Definition cp_is_lower (c : N) : bool := (N.leb 97 c && N.leb c 122)%bool.

Definition cp_is_cased (c : N) : bool :=
  (cp_is_lower c || cp_is_upper c || N.eqb c 304)%bool.

Definition to_lower_full (c : N) : list N :=
  if cp_is_upper c then [(c + 32)%N]
  else if N.eqb c 304 then [105%N; 775%N]
  else [c].

Definition to_title_full (c : N) : list N :=
  if cp_is_lower c then [(c - 32)%N] else [c].

Fixpoint do_title (previous_is_cased : bool) (s : list N) : list N :=
  match s with
  | [] => []
  | c :: rest =>
      (if previous_is_cased then to_lower_full c else to_title_full c)
        ++ do_title (cp_is_cased c) rest
  end.

Definition code_points (s : string) : list N :=
  map N_of_ascii (list_ascii_of_string s).

Definition of_code_points (l : list N) : string :=
  string_of_list_ascii (map ascii_of_N l).

Fixpoint cp_eqb (a b : list N) : bool :=
  match a, b with
  | [], [] => true
  | x :: a', y :: b' => (N.eqb x y && cp_eqb a' b')%bool
  | _, _ => false
  end.

Fixpoint dict_get_cp (d : list (list N * list N)) (k : list N) : option (list N) :=
  match d with
  | [] => None
  | (k', v) :: d' => if cp_eqb k' k then Some v else dict_get_cp d' k
  end.

Definition name_fixes_cp : list (list N * list N) :=
  map (fun kv => (code_points (fst kv), code_points (snd kv))) name_fixes.

(** Lines 84 and 95 on a name given by its code points. *)
Definition normalize_cp (raw : list N) : list N :=
  let t := do_title false raw in
  match dict_get_cp name_fixes_cp t with
  | Some v => v
  | None => t
  end.

End Names.

(** ** [str.title] with the Unicode tables as parameters

    [str.title] is CPython's [do_title]: a loop over the code points of the
    string that sends a character through the title-case mapping when the
    character before it is not cased, and through the lower-case mapping when
    it is.  The tables it reads are the interpreter's, not this repository's,
    so they are parameters here; whatever they are, [title] and [normalize]
    below are lines 84 and 95 on one name. *)

Module Unicode.

Section Tables.

Variable is_cased : N -> bool.                       (* _PyUnicode_IsCased *)
Variable to_title_full : N -> list N.                (* _PyUnicode_ToTitleFull *)
(** [lower_ucs4] reads the string and the position besides the character:
    the lower case of a capital sigma depends on its neighbours. *)
Variable lower_ucs4 : list N -> nat -> N -> list N.

Fixpoint do_title (data : list N) (i : nat) (previous_is_cased : bool) (s : list N)
  : list N :=
  match s with
  | [] => []
  | c :: rest =>
      (if previous_is_cased then lower_ucs4 data i c else to_title_full c)
        ++ do_title data (S i) (is_cased c) rest
  end.

Definition title (data : list N) : list N := do_title data 0 false data.

(** Lines 84 and 95 on one name. *)
Definition normalize (raw : list N) : list N :=
  let t := title raw in
  match Names.dict_get_cp Names.name_fixes_cp t with
  | Some v => v
  | None => t
  end.

(** The words of the specification, position by position: a character that
    starts a word (the first one, or one that follows a character that is not
    cased) is capitalised, any other is lower-cased. *)
Definition starts_word (data : list N) (i : nat) : bool :=
  match i with
  | O => true
  | S j => match nth_error data j with
           | Some c => negb (is_cased c)
           | None => true
           end
  end.

Definition title_case_piece (data : list N) (i : nat) : list N :=
  match nth_error data i with
  | None => []
  | Some c => if starts_word data i then to_title_full c else lower_ucs4 data i c
  end.

Definition title_case (data : list N) : list N :=
  flat_map (title_case_piece data) (seq 0 (List.length data)).

End Tables.

(** The ASCII letters, given by the two alphabets. *)
Definition small_letters : list N := Names.code_points "abcdefghijklmnopqrstuvwxyz".

Definition capital_letters : list N := Names.code_points "ABCDEFGHIJKLMNOPQRSTUVWXYZ".

Fixpoint position (c : N) (l : list N) : option nat :=
  match l with
  | [] => None
  | x :: l' => if N.eqb x c then Some O else option_map S (position c l')
  end.

Definition ascii_letter (c : N) : bool :=
  match position c small_letters, position c capital_letters with
  | None, None => false
  | _, _ => true
  end.

Definition ascii_capital (c : N) : N :=
  match position c small_letters with
  | Some i => nth i capital_letters c
  | None => c
  end.

Definition ascii_small (c : N) : N :=
  match position c capital_letters with
  | Some i => nth i small_letters c
  | None => c
  end.

(** What the Unicode tables say on the ASCII range. *)
Definition on_ascii (is_cased : N -> bool) (to_title_full : N -> list N)
           (lower_ucs4 : list N -> nat -> N -> list N) : Prop :=
  forall c, (c < 128)%N ->
            is_cased c = ascii_letter c /\
            to_title_full c = [ascii_capital c] /\
            forall data i, lower_ucs4 data i c = [ascii_small c].

Definition ascii_name (s : string) : Prop :=
  Forall (fun c => (c < 128)%N) (Names.code_points s).

(** Title case on a name of ASCII characters, in the words of the
    specification: the first letter of each word becomes its capital, every
    other letter its small letter, and what is not a letter is kept. *)
Definition ascii_word_start (x : list N) (i : nat) : bool :=
  match i with
  | O => true
  | S j => negb (ascii_letter (nth j x 0%N))
  end.

Definition ascii_title_case (x : list N) : list N :=
  map (fun i => if ascii_word_start x i
                then ascii_capital (nth i x 0%N)
                else ascii_small (nth i x 0%N))
      (seq 0 (List.length x)).

End Unicode.

(** ** The tariff table (lines 103-114) *)

Record tariff_entry : Type := mk_tariff {
  t_country_name : string;    (* 'Country Name' *)
  t_tariff_rate : float;      (* 'Tariff Rate (%)' *)
  t_category : string;        (* 'Category' *)
  t_iso_alpha_3 : string      (* 'ISO_ALPHA_3' *)
}.

Module Tariff.

Definition country_names : list string :=
  ["Canada"; "Mexico"; "China"; "Germany"; "France"; "United Kingdom"; "India";
   "Japan"; "South Korea"; "Brazil"; "Vietnam"; "Russia"; "Australia"].

Definition tariff_rates : list float :=
  [0.0; 0.0; 19.3; 2.4; 2.6; 2.5; 3.2; 0.0; 0.0; 3.5; 2.8; 35.0; 0.0]%float.

Definition categories : list string :=
  ["FTA Partner"; "FTA Partner"; "Trade War"; "Normal Trade"; "Normal Trade";
   "Normal Trade"; "Normal Trade"; "FTA Partner"; "FTA Partner"; "Normal Trade";
   "Normal Trade"; "Sanctioned"; "FTA Partner"].

Definition iso_alpha_3 : list string :=
  ["CAN"; "MEX"; "CHN"; "DEU"; "FRA"; "GBR"; "IND"; "JPN"; "KOR"; "BRA"; "VNM";
   "RUS"; "AUS"].

(** [pd.DataFrame(data)] on a dict of four equally long lists: row [i] takes
    the [i]-th element of each list. *)
Fixpoint frame_of_columns (ns : list string) (rs : list float)
         (cs : list string) (isos : list string) : list tariff_entry :=
  match ns, rs, cs, isos with
  | n :: ns', r :: rs', c :: cs', i :: isos' =>
      mk_tariff n r c i :: frame_of_columns ns' rs' cs' isos'
  | _, _, _, _ => []
  end.

Definition get_tariff_data : list tariff_entry :=
  frame_of_columns country_names tariff_rates categories iso_alpha_3.

Definition allowed_categories : list string :=
  ["FTA Partner"; "Normal Trade"; "Trade War"; "Sanctioned"].

Definition mem_string (s : string) (l : list string) : bool :=
  existsb (String.eqb s) l.

Fixpoint distinct (l : list string) : bool :=
  match l with
  | [] => true
  | s :: l' => (negb (mem_string s l') && distinct l')%bool
  end.

Definition three_upper_letters (s : string) : bool :=
  match s with
  | String a (String b (String c EmptyString)) =>
      (Names.is_upper a && Names.is_upper b && Names.is_upper c)%bool
  | _ => false
  end.

End Tariff.

(** ** Replies of the Census API (lines 55-57, 61-63) *)

(** A body is not JSON, or JSON that is not an array (an object, a string,
    a number, a boolean, null), or an array of rows whose cells are JSON
    strings or null, which is what the API serves. *)
Definition payload : Type := list (list (option string)).

Inductive body : Type :=
| NotJSON
| NonArray
| Table (data : payload).

Inductive response : Type :=
| Unreachable
| Reply (status : Z) (b : body).

Inductive endpoint : Type := ExportsHS | ImportsHS.

Record request : Type := mk_request {
  url : endpoint;
  get : string;      (* params['get'] *)
  time : Z           (* params['time'], the target year *)
}.

Definition network : Type := request -> response.

(** ** Frames built from a payload (lines 58, 64) *)

Record DataFrame : Type := mk_frame {
  columns : list (option string);
  values : list (list (option string))
}.

Inductive obj : Type :=      (* a cell of an object column *)
| ONaN
| OStr (s : string)
| OInt (z : Z).

Record exp_row : Type := mk_exp {   (* df_exp[['CTY_CODE','CTY_NAME','Exports']] *)
  e_code : option string;
  e_name : option string;
  e_exports : float
}.

Record imp_row : Type := mk_imp {   (* df_imp[['CTY_CODE','Imports']] *)
  i_code : option string;
  i_imports : float
}.

Record merged_row : Type := mk_merged {   (* a row of the outer merge *)
  m_code : option string;
  m_name : option string;
  m_exports : float;
  m_imports : float
}.

Record trade_row : Type := mk_trade {     (* a row of the returned df_merged *)
  CTY_CODE : obj;
  CTY_NAME : obj;
  Exports : float;
  Imports : float;
  Balance : float;                        (* 'US Trade Balance ($B)' *)
  Country_Name : obj                      (* 'Country Name' *)
}.

(** What [get_census_trade_data] returns: [pd.DataFrame()], which has no
    column at all, or a frame with the six columns above. *)
Inductive trade_frame : Type :=
| Blank
| Trade (rows : list trade_row).

Module Fetcher.

Definition raise_for_status (r : response) : result body :=
  match r with
  | Unreachable => Raise ConnectionError
  | Reply status b =>
      if ((400 <=? status) && (status <? 600))%Z then Raise (HTTPError status)
      else Ok b
  end.

Definition json (b : body) : result body :=
  match b with
  | NotJSON => Raise JSONDecodeError
  | _ => Ok b
  end.

Definition width (rows : list (list (option string))) : nat :=
  fold_right (fun r m => Nat.max (List.length r) m) 0%nat rows.

Definition pad (n : nat) (r : list (option string)) : list (option string) :=
  r ++ repeat None (n - List.length r).

(** [pd.DataFrame(data[1:], columns=data[0])]: rows shorter than the longest
    are padded with missing cells; the longest must be as long as the header,
    unless there is no data row. *)
Definition make_frame (data : body) : result DataFrame :=
  match data with
  | NotJSON => Raise JSONDecodeError
  | NonArray => Raise TypeError
  | Table [] => Raise IndexError
  | Table (header :: []) => Ok (mk_frame header [])
  | Table (header :: rest) =>
      if Nat.eqb (width rest) (List.length header)
      then Ok (mk_frame header (map (pad (List.length header)) rest))
      else Raise ValueError
  end.

Definition label_eqb (label : string) (c : option string) : bool :=
  match c with
  | Some s => String.eqb s label
  | None => false
  end.

Definition occurrences (label : string) (cols : list (option string)) : nat :=
  List.length (filter (label_eqb label) cols).

Fixpoint index_of (label : string) (cols : list (option string)) : nat :=
  match cols with
  | [] => O
  | c :: cols' => if label_eqb label c then O else S (index_of label cols')
  end.

(** [df[label]] used as one column: the label must be there, and once. *)
Definition column (df : DataFrame) (label : string) : result (list (option string)) :=
  match occurrences label (columns df) with
  | O => Raise (KeyError label)
  | S O => Ok (map (fun r => nth (index_of label (columns df)) r None) (values df))
  | _ => Raise TypeError
  end.

(** [df[new] = ...] then [df[[..., new]]]: a label the payload repeats would
    be selected twice. *)
Definition assignable (df : DataFrame) (label : string) : result unit :=
  if Nat.leb (occurrences label (columns df)) 1 then Ok tt else Raise ValueError.

Section Numeric.

(** The conversion of one string by [pd.to_numeric], seen as a float64 (the
    division promotes an integer column): [None] when pandas raises. *)
Variable str_to_float : string -> option float.

Definition to_numeric_cell (c : option string) : result float :=
  match c with
  | None => Ok nan
  | Some s => match str_to_float s with
              | Some x => Ok x
              | None => Raise ValueError
              end
  end.

Definition to_numeric (col : list (option string)) : result (list float) :=
  mapM to_numeric_cell col.

Definition billions (x : float) : float := (x / 1000000000)%float.

(** Lines 68 and 69. *)
Definition value_column (df : DataFrame) (source new : string) : result (list float) :=
  let* raw := column df source in
  let* nums := to_numeric raw in
  let* _ := assignable df new in
  Ok (map billions nums).

Fixpoint zip_exp (cs ns : list (option string)) (xs : list float) : list exp_row :=
  match cs, ns, xs with
  | c :: cs', n :: ns', x :: xs' => mk_exp c n x :: zip_exp cs' ns' xs'
  | _, _, _ => []
  end.

Fixpoint zip_imp (cs : list (option string)) (xs : list float) : list imp_row :=
  match cs, xs with
  | c :: cs', x :: xs' => mk_imp c x :: zip_imp cs' xs'
  | _, _ => []
  end.

(** [df_exp[['CTY_CODE','CTY_NAME','Exports']]] with the new column. *)
Definition select_exp (df : DataFrame) (exports : list float) : result (list exp_row) :=
  let* codes := column df "CTY_CODE" in
  let* names := column df "CTY_NAME" in
  Ok (zip_exp codes names exports).

(** [df_imp[['CTY_CODE','Imports']]] with the new column. *)
Definition select_imp (df : DataFrame) (imports : list float) : result (list imp_row) :=
  let* codes := column df "CTY_CODE" in
  Ok (zip_imp codes imports).

End Numeric.

(** *** The outer merge on [CTY_CODE] (lines 72-75) *)

Definition key_eqb (a b : option string) : bool :=
  match a, b with
  | Some x, Some y => String.eqb x y
  | None, None => true
  | _, _ => false
  end.

(** Keys in lexicographic order, a missing key after every string. *)
Definition key_leb (a b : option string) : bool :=
  match a, b with
  | Some x, Some y => String.leb x y
  | Some _, None => true
  | None, Some _ => false
  | None, None => true
  end.

Fixpoint insert_key (k : option string) (l : list (option string)) : list (option string) :=
  match l with
  | [] => [k]
  | k' :: l' =>
      if key_eqb k k' then l
      else if key_leb k k' then k :: l
      else k' :: insert_key k l'
  end.

Definition sorted_keys (ks : list (option string)) : list (option string) :=
  fold_right insert_key [] ks.

(** The rows of one key: the product of the two sides, or the side that has
    the key with the other side's columns missing. *)
Definition merge_key (L : list exp_row) (R : list imp_row) (k : option string)
  : list merged_row :=
  let ls := filter (fun l => key_eqb (e_code l) k) L in
  let rs := filter (fun r => key_eqb (i_code r) k) R in
  match ls, rs with
  | [], _ => map (fun r => mk_merged k None nan (i_imports r)) rs
  | _, [] => map (fun l => mk_merged k (e_name l) (e_exports l) nan) ls
  | _, _ =>
      flat_map (fun l => map (fun r => mk_merged k (e_name l) (e_exports l) (i_imports r)) rs) ls
  end.

Definition merge_outer (L : list exp_row) (R : list imp_row) : list merged_row :=
  flat_map (merge_key L R) (sorted_keys (map e_code L ++ map i_code R)).

(** *** [fillna(0)], balance and names (lines 78-95) *)

Definition fillna_obj (c : option string) : obj :=
  match c with
  | Some s => OStr s
  | None => OInt 0
  end.

Definition fillna_float (x : float) : float :=
  if is_nan x then 0%float else x.

Definition is_str (o : obj) : bool :=
  match o with OStr _ => true | _ => false end.

(** [.str] is refused on a column that has rows and no string among them. *)
Definition str_accessor (col : list obj) : result unit :=
  match col with
  | [] => Ok tt
  | _ => if existsb is_str col then Ok tt else Raise AttributeError
  end.

Definition str_title (o : obj) : obj :=
  match o with
  | OStr s => OStr (Names.title s)
  | _ => ONaN
  end.

Definition replace_fixes (o : obj) : obj :=
  match o with
  | OStr s => OStr (Names.replace Names.name_fixes s)
  | _ => o
  end.

Definition finish_row (m : merged_row) : trade_row :=
  let code := fillna_obj (m_code m) in
  let name := fillna_obj (m_name m) in
  let exports := fillna_float (m_exports m) in
  let imports := fillna_float (m_imports m) in
  mk_trade code name exports imports (exports - imports)%float
           (replace_fixes (str_title name)).

Definition reconcile (L : list exp_row) (R : list imp_row) : result (list trade_row) :=
  let merged := merge_outer L R in
  let* _ := str_accessor (map (fun m => fillna_obj (m_name m)) merged) in
  Ok (map finish_row merged).

(** *** The [try] block and its handler (lines 43-101) *)

Definition params_exp (target_year : Z) : request :=
  mk_request ExportsHS "CTY_CODE,CTY_NAME,ALL_VAL_YR" target_year.

Definition params_imp (target_year : Z) : request :=
  mk_request ImportsHS "CTY_CODE,CTY_NAME,GEN_VAL_YR" target_year.

Definition fetch_frame (net : network) (q : request) : result DataFrame :=
  let* b := raise_for_status (net q) in
  let* data := json b in
  make_frame data.

Section Body.

Variable str_to_float : string -> option float.

Definition process (df_exp df_imp : DataFrame) : result (list trade_row) :=
  let* exports := value_column str_to_float df_exp "ALL_VAL_YR" "Exports" in
  let* imports := value_column str_to_float df_imp "GEN_VAL_YR" "Imports" in
  let* L := select_exp df_exp exports in
  let* R := select_imp df_imp imports in
  reconcile L R.

Definition try_body (net : network) (current_year : Z) : result (list trade_row) :=
  let target_year := (current_year - 1)%Z in
  let* df_exp := fetch_frame net (params_exp target_year) in
  let* df_imp := fetch_frame net (params_imp target_year) in
  process df_exp df_imp.

(** The requests the block issues, in order: the imports request is reached
    only when the exports frame was built. *)
Definition requests_issued (net : network) (current_year : Z) : list request :=
  let target_year := (current_year - 1)%Z in
  params_exp target_year ::
  (if is_ok (fetch_frame net (params_exp target_year))
   then [params_imp target_year] else []).

(** The value of the call: the [st.error] messages and the frame. *)
Record fetched : Type := mk_fetched {
  errors : list exn;
  frame : trade_frame
}.

Definition get_census_trade_data (net : network) (current_year : Z) : fetched :=
  match try_body net current_year with
  | Ok rows => mk_fetched [] (Trade rows)
  | Raise e => mk_fetched [e] Blank
  end.

End Body.

End Fetcher.

(** [df_merged] as lines 72-95 build it from the two projected tables: the
    outer merge, then row by row the filled cells, the balance and the
    country name.  [Fetcher.reconcile] returns it unless [.str] refuses the
    name column. *)
Definition df_merged (L : list exp_row) (R : list imp_row) : list trade_row :=
  map Fetcher.finish_row (Fetcher.merge_outer L R).

(** ** The left merge on [Country Name] (lines 130-135) *)

Record joined_row : Type := mk_joined {
  j_country_name : string;
  j_tariff_rate : float;
  j_category : string;
  j_iso_alpha_3 : string;
  j_cty_code : obj;
  j_cty_name : obj;
  j_exports : float;
  j_imports : float;
  j_balance : float
}.

Module Joiner.

Definition name_matches (e : tariff_entry) (r : trade_row) : bool :=
  match Country_Name r with
  | OStr s => String.eqb s (t_country_name e)
  | _ => false
  end.

Definition matched (e : tariff_entry) (r : trade_row) : joined_row :=
  mk_joined (t_country_name e) (t_tariff_rate e) (t_category e) (t_iso_alpha_3 e)
            (CTY_CODE r) (CTY_NAME r) (Exports r) (Imports r) (Balance r).

Definition unmatched (e : tariff_entry) : joined_row :=
  mk_joined (t_country_name e) (t_tariff_rate e) (t_category e) (t_iso_alpha_3 e)
            ONaN ONaN nan nan nan.

(** [how="left"]: the rows of the left frame in their order; a left row
    comes out once per right row with its key, once when there is none. *)
Definition merge_left_row (rows : list trade_row) (e : tariff_entry) : list joined_row :=
  match filter (name_matches e) rows with
  | [] => [unmatched e]
  | ms => map (matched e) ms
  end.

Definition merge_left (t : list tariff_entry) (rows : list trade_row) : list joined_row :=
  flat_map (merge_left_row rows) t.

(** Lines 133-135: [fillna(0)] on the three trade columns. *)
Definition fill_trade (j : joined_row) : joined_row :=
  mk_joined (j_country_name j) (j_tariff_rate j) (j_category j) (j_iso_alpha_3 j)
            (j_cty_code j) (j_cty_name j)
            (Fetcher.fillna_float (j_exports j))
            (Fetcher.fillna_float (j_imports j))
            (Fetcher.fillna_float (j_balance j)).

Definition join (t : list tariff_entry) (df_trade : trade_frame) : result (list joined_row) :=
  match df_trade with
  | Blank => Raise (KeyError "Country Name")
  | Trade rows => Ok (map fill_trade (merge_left t rows))
  end.

Definition tariff_of (j : joined_row) : tariff_entry :=
  mk_tariff (j_country_name j) (j_tariff_rate j) (j_category j) (j_iso_alpha_3 j).

Definition matches (rows : list trade_row) (e : tariff_entry) : nat :=
  List.length (filter (name_matches e) rows).

End Joiner.

(** ** The cached call and the script (lines 23, 120-188) *)

Module App.

Import Fetcher.

Definition ttl : Z := 3600.

(** One run of the script reads two clocks: the timer of the cache, in
    seconds, and the calendar year of [datetime.datetime.now()]. *)
Record clock : Type := mk_clock {
  timer : Z;
  year : Z
}.

Record cache_entry : Type := mk_entry {
  stored_at : Z;
  cached_value : fetched
}.

(** [get_census_trade_data] takes no argument, so the cache of the decorated
    function holds at most one entry. *)
Definition cache : Type := option cache_entry.

Definition df_empty (f : trade_frame) : bool :=
  match f with
  | Blank => true
  | Trade [] => true
  | Trade (_ :: _) => false
  end.

Inductive outcome : Type :=
| Dashboard (merged_df : list joined_row)   (* map and table drawn from merged_df *)
| Unavailable                               (* the st.warning of the else branch *)
| Uncaught (e : exn).                       (* an exception that ends the run *)

Record run : Type := mk_run {
  shown : list exn;        (* st.error messages of this run *)
  page : outcome;
  sent : list request;     (* requests issued during this run *)
  cache_after : cache
}.

Section Script.

Variable str_to_float : string -> option float.

Definition fresh (c : cache) (now : clock) : option fetched :=
  match c with
  | Some entry =>
      if (timer now <? stored_at entry + ttl)%Z then Some (cached_value entry) else None
  | None => None
  end.

(** [@st.cache_data(ttl=3600)] around the function. *)
Definition cached_get_census_trade_data (net : network) (now : clock) (c : cache)
  : fetched * list request * cache :=
  match fresh c now with
  | Some v => (v, [], c)
  | None =>
      let v := get_census_trade_data str_to_float net (year now) in
      (v, requests_issued net (year now), Some (mk_entry (timer now) v))
  end.

Definition render (df_trade : trade_frame) : outcome :=
  let df_tariff := Tariff.get_tariff_data in
  if negb (df_empty df_trade) then
    match Joiner.join df_tariff df_trade with
    | Ok merged_df => Dashboard merged_df
    | Raise e => Uncaught e
    end
  else Unavailable.

Definition main (net : network) (now : clock) (c : cache) : run :=
  let '(v, reqs, c') := cached_get_census_trade_data net now c in
  mk_run (errors v) (render (frame v)) reqs c'.

End Script.

End App.

(** ** A fragment of [pd.to_numeric] to run the model on concrete payloads:
    unsigned decimal integers below 2^64, correctly rounded, the literal
    [inf], and the empty string, which is read as a missing value. *)

Module Sample.

Definition digit (c : ascii) : option Z :=
  let n := N_of_ascii c in
  if (N.leb 48 n && N.leb n 57)%bool then Some (Z.of_N n - 48)%Z else None.

Fixpoint digits (acc : Z) (s : string) : option Z :=
  match s with
  | EmptyString => Some acc
  | String c rest =>
      match digit c with
      | Some d => digits (10 * acc + d)%Z rest
      | None => None
      end
  end.

Definition Z_to_float (z : Z) : float :=
  SF2Prim (binary_normalize prec emax z 0 false).

Definition str_to_float (s : string) : option float :=
  if String.eqb s "inf" then Some infinity
  else match s with
       | EmptyString => Some nan
       | _ => match digits 0 s with
              | Some z => if (z <? 2 ^ 64)%Z then Some (Z_to_float z) else None
              | None => None
              end
       end.

Definition header_exp : list (option string) :=
  [Some "CTY_CODE"; Some "CTY_NAME"; Some "ALL_VAL_YR"; Some "time"].

Definition header_imp : list (option string) :=
  [Some "CTY_CODE"; Some "CTY_NAME"; Some "GEN_VAL_YR"; Some "time"].

Definition cells (l : list string) : list (option string) := map Some l.

(** A network that serves the same two tables whatever the year. *)
Definition serve (exports imports : body) : network :=
  fun q => match url q with
           | ExportsHS => Reply 200 exports
           | ImportsHS => Reply 200 imports
           end.

(** A network whose tables depend on the year asked for: one billion dollars
    each way for 2024, two billion for any other year. *)
Definition yearly : network :=
  fun q =>
    Reply 200
      (Table [match url q with ExportsHS => header_exp | ImportsHS => header_imp end;
              cells ["5700"; "CHINA";
                     if (time q =? 2024)%Z then "1000000000" else "2000000000";
                     "-"]]).

End Sample.

(** ** The labels the fetcher reads, and a table with its columns reordered *)

Module Layout.

(** Lines 68 and 72: [df_exp['ALL_VAL_YR']], [df_exp[['CTY_CODE','CTY_NAME',...]]]. *)
Definition read_from_exports : list string := ["ALL_VAL_YR"; "CTY_CODE"; "CTY_NAME"].

(** Lines 69 and 73: [df_imp['GEN_VAL_YR']], [df_imp[['CTY_CODE',...]]]. *)
Definition read_from_imports : list string := ["GEN_VAL_YR"; "CTY_CODE"].

(** Column [j] of the reordered row is column [nth j p] of the row. *)
Definition permute (p : list nat) (r : list (option string)) : list (option string) :=
  map (fun i => nth i r None) p.

Definition permute_columns (p : list nat) (data : payload) : payload :=
  map (permute p) data.

End Layout.

(** ** The strict order of the merge keys *)

Definition key_lt (a b : option string) : Prop :=
  Fetcher.key_leb a b = true /\ a <> b.

(** * Theorems *)

Section TitleFacts.
Import Names.

Lemma upper_of_lower (c : ascii) :
  is_lower c = true -> is_lower (to_upper c) = false /\ is_upper (to_upper c) = true.
Proof.
  destruct c as [[] [] [] [] [] [] [] []]; cbv; intuition congruence.
Qed.

Lemma lower_of_upper (c : ascii) :
  is_upper c = true -> is_lower (to_lower c) = true.
Proof.
  destruct c as [[] [] [] [] [] [] [] []]; cbv; intuition congruence.
Qed.

Lemma title_from_idem (s : string) :
  forall p, title_from p (title_from p s) = title_from p s.
Proof.
  induction s as [|c rest IH]; intro p; [reflexivity|].
  cbn [title_from].
  destruct (is_lower c) eqn:Hl.
  - destruct p; cbn [title_from].
    + rewrite Hl, IH. reflexivity.
    + destruct (upper_of_lower c Hl) as [Hnl Hu].
      rewrite Hnl, Hu, IH. reflexivity.
  - destruct (is_upper c) eqn:Hu.
    + destruct p; cbn [title_from].
      * rewrite (lower_of_upper c Hu), IH. reflexivity.
      * rewrite Hl, Hu, IH. reflexivity.
    + cbn [title_from]. rewrite Hl, Hu, IH. reflexivity.
Qed.

Lemma dict_get_in (d : list (string * string)) (k v : string) :
  dict_get d k = Some v -> In (k, v) d.
Proof.
  induction d as [|[k' v'] d IH]; cbn; [discriminate|].
  destruct (String.eqb_spec k' k) as [->|_].
  - intros [= ->]. now left.
  - intros H. right. now apply IH.
Qed.

End TitleFacts.

Section NormalizeFacts.
Import Names.

Lemma replace_title_of_values :
  Forall (fun kv => replace name_fixes (title (snd kv)) = snd kv) name_fixes.
Proof. repeat constructor. Qed.

End NormalizeFacts.

(** On one-byte strings, normalising a normalised name changes nothing. *)
Lemma normalize_idempotent_one_byte (x : string) :
  Names.normalize (Names.normalize x) = Names.normalize x.
Proof.
  unfold Names.normalize at 2 3. unfold Names.replace.
  destruct (Names.dict_get Names.name_fixes (Names.title x)) as [v|] eqn:Hget.
  - apply dict_get_in in Hget.
    pose proof replace_title_of_values as Hall.
    rewrite Forall_forall in Hall. exact (Hall _ Hget).
  - unfold Names.normalize, Names.replace, Names.title.
    rewrite title_from_idem. fold (Names.title x). now rewrite Hget.
Qed.

Section CodePointFacts.
Import Names.

(** One character of a one-byte string through [do_title]. *)
Lemma do_title_char (c : ascii) (p : bool) :
  (if p then to_lower_full (N_of_ascii c) else to_title_full (N_of_ascii c))
  = [N_of_ascii (if is_lower c then (if p then c else to_upper c)
                 else if is_upper c then (if p then to_lower c else c)
                 else c)] /\
  cp_is_cased (N_of_ascii c) = is_cased c.
Proof.
  destruct c as [[] [] [] [] [] [] [] []]; destruct p; vm_compute; split; reflexivity.
Qed.

Lemma do_title_code_points (s : string) :
  forall p, code_points (title_from p s) = do_title p (code_points s).
Proof.
  induction s as [|c rest IH]; intro p; [reflexivity|].
  change (code_points (String c rest)) with (N_of_ascii c :: code_points rest).
  cbn [do_title]. destruct (do_title_char c p) as [-> ->].
  cbn [title_from]. unfold is_cased.
  destruct (is_lower c); [|destruct (is_upper c)];
    cbn [orb app]; rewrite <- IH; reflexivity.
Qed.

Lemma of_code_points_code_points (s : string) : of_code_points (code_points s) = s.
Proof.
  unfold of_code_points, code_points. rewrite map_map.
  rewrite (map_ext _ (fun a => a)) by apply ascii_N_embedding.
  rewrite map_id. apply string_of_list_ascii_of_string.
Qed.

Lemma code_points_of_code_points (l : list N) :
  Forall (fun c => (c < 256)%N) l -> code_points (of_code_points l) = l.
Proof.
  intros Hall. unfold of_code_points, code_points.
  rewrite list_ascii_of_string_of_list_ascii, map_map.
  induction Hall as [|c l Hc Hall IH]; [reflexivity|].
  cbn [map]. now rewrite IH, (N_ascii_embedding c Hc).
Qed.

Lemma cp_eqb_eq (a b : list N) : cp_eqb a b = true <-> a = b.
Proof.
  revert b. induction a as [|x a IH]; intros [|y b]; cbn; try (split; congruence).
  rewrite andb_true_iff, N.eqb_eq, IH. split; [intros [-> ->]|intros [= -> ->]]; auto.
Qed.

Lemma cp_eqb_code_points (k t : string) :
  cp_eqb (code_points k) (code_points t) = String.eqb k t.
Proof.
  destruct (String.eqb_spec k t) as [->|Hne].
  - now apply cp_eqb_eq.
  - destruct (cp_eqb (code_points k) (code_points t)) eqn:Heq; [|reflexivity].
    apply cp_eqb_eq in Heq. exfalso. apply Hne.
    rewrite <- (of_code_points_code_points k), Heq.
    apply of_code_points_code_points.
Qed.

Lemma dict_get_code_points (d : list (string * string)) (t : string) :
  dict_get_cp (map (fun kv => (code_points (fst kv), code_points (snd kv))) d)
              (code_points t)
  = option_map code_points (dict_get d t).
Proof.
  induction d as [|[k v] d IH]; [reflexivity|].
  cbn [map dict_get_cp dict_get fst snd]. rewrite cp_eqb_code_points.
  destruct (String.eqb k t); [reflexivity|exact IH].
Qed.

(** On a one-byte string the code-point version is [normalize]. *)
Lemma normalize_code_points (s : string) :
  normalize_cp (code_points s) = code_points (normalize s).
Proof.
  unfold normalize_cp, normalize, replace, title, name_fixes_cp.
  rewrite <- do_title_code_points, dict_get_code_points.
  now destruct (dict_get name_fixes (title_from false s)).
Qed.

End CodePointFacts.

(** ** [str.title] whatever the Unicode tables *)

Section UnicodeTitleFacts.
Import Unicode.
Variable is_cased : N -> bool.
Variable to_title_full : N -> list N.
Variable lower_ucs4 : list N -> nat -> N -> list N.

Lemma skipn_cons {A} (data : list A) :
  forall i c rest,
    skipn i data = c :: rest ->
    nth_error data i = Some c /\ skipn (S i) data = rest.
Proof.
  induction data as [|a data IH]; intros [|i] c rest; cbn; try discriminate.
  - intros [= -> ->]. split; reflexivity.
  - intros H. now apply IH.
Qed.

(** The flag of the loop is "the character before is cased". *)
Lemma do_title_pieces (data : list N) (s : list N) :
  forall i,
    skipn i data = s ->
    do_title is_cased to_title_full lower_ucs4 data i
             (negb (starts_word is_cased data i)) s
    = flat_map (title_case_piece is_cased to_title_full lower_ucs4 data)
               (seq i (List.length s)).
Proof.
  induction s as [|c rest IH]; intros i Hs; [reflexivity|].
  apply skipn_cons in Hs as [Hc Hrest].
  cbn [do_title List.length seq flat_map].
  unfold title_case_piece at 1. rewrite Hc.
  assert (Hflag : is_cased c = negb (starts_word is_cased data (S i))).
  { cbn [starts_word]. rewrite Hc. now rewrite negb_involutive. }
  rewrite Hflag, (IH (S i) Hrest).
  now destruct (starts_word is_cased data i).
Qed.

Lemma title_is_title_case (data : list N) :
  title is_cased to_title_full lower_ucs4 data
  = title_case is_cased to_title_full lower_ucs4 data.
Proof.
  unfold title, title_case.
  exact (do_title_pieces data data 0 eq_refl).
Qed.

End UnicodeTitleFacts.

Section CodePointDictFacts.
Import Names.

Lemma dict_get_cp_none (d : list (list N * list N)) (k : list N) :
  ~ In k (map fst d) -> dict_get_cp d k = None.
Proof.
  induction d as [|[k' v'] d IH]; cbn; [reflexivity|]. intros Hn.
  destruct (cp_eqb k' k) eqn:Heq.
  - apply cp_eqb_eq in Heq. tauto.
  - apply IH. tauto.
Qed.

Lemma dict_get_cp_first (d : list (list N * list N)) (k v : list N) :
  NoDup (map fst d) -> In (k, v) d -> dict_get_cp d k = Some v.
Proof.
  induction d as [|[k' v'] d IH]; cbn; [tauto|].
  intros Hnd [[= -> ->]|Hin].
  - now rewrite (proj2 (cp_eqb_eq k k) eq_refl).
  - inversion Hnd as [|? ? Hk Hd]; subst.
    destruct (cp_eqb k' k) eqn:Heq.
    + apply cp_eqb_eq in Heq. subst k'.
      exfalso. apply Hk. now apply (in_map fst) in Hin.
    + now apply IH.
Qed.

Lemma code_points_injective (a b : string) : code_points a = code_points b -> a = b.
Proof.
  intros H. rewrite <- (of_code_points_code_points a), H.
  apply of_code_points_code_points.
Qed.

Lemma name_fixes_cp_keys_distinct : NoDup (map fst name_fixes_cp).
Proof.
  vm_compute. repeat (constructor; [cbn; intuition discriminate|]). constructor.
Qed.

End CodePointDictFacts.

Section AsciiTableFacts.
Import Unicode.

(** On a one-byte character the alphabets agree with the arithmetic of
    [Names]. *)
Lemma ascii_tables_char (a : ascii) :
  ascii_letter (N_of_ascii a) = Names.is_cased a /\
  ascii_capital (N_of_ascii a) = N_of_ascii (Names.to_upper a) /\
  ascii_small (N_of_ascii a) = N_of_ascii (Names.to_lower a).
Proof.
  destruct a as [[] [] [] [] [] [] [] []]; vm_compute; repeat split.
Qed.

Lemma title_from_step (a : ascii) (p : bool) (rest : string) :
  Names.title_from p (String a rest)
  = String (if p then Names.to_lower a else Names.to_upper a)
           (Names.title_from (Names.is_cased a) rest).
Proof.
  destruct a as [[] [] [] [] [] [] [] []]; destruct p; reflexivity.
Qed.

Lemma ascii_small_absorbs (c : N) :
  (c < 256)%N ->
  ascii_small (ascii_capital c) = ascii_small c /\
  ascii_small (ascii_small c) = ascii_small c.
Proof.
  intros Hc. rewrite <- (N_ascii_embedding c Hc).
  generalize (ascii_of_N c). clear.
  intros a. destruct a as [[] [] [] [] [] [] [] []]; vm_compute; split; reflexivity.
Qed.

Lemma flat_map_singletons {A B} (f : A -> list B) (g : A -> B) (l : list A) :
  (forall a, In a l -> f a = [g a]) -> flat_map f l = map g l.
Proof.
  induction l as [|a l IH]; intros H; [reflexivity|].
  cbn. rewrite (H a (or_introl eq_refl)), IH; [reflexivity|].
  intros b Hb. apply H. now right.
Qed.

Lemma map_nth_seq {A} (d : A) (l : list A) :
  map (fun i => nth i l d) (seq 0 (List.length l)) = l.
Proof.
  induction l as [|a l IH]; [reflexivity|].
  cbn [List.length seq map nth]. f_equal.
  rewrite <- seq_shift, map_map. exact IH.
Qed.

Variable is_cased : N -> bool.
Variable to_title_full : N -> list N.
Variable lower_ucs4 : list N -> nat -> N -> list N.
Hypothesis Hascii : on_ascii is_cased to_title_full lower_ucs4.

(** On a name of ASCII characters the loop is the pipeline's [title_from]. *)
Lemma do_title_ascii (s : string) :
  forall data i p,
    ascii_name s ->
    do_title is_cased to_title_full lower_ucs4 data i p (Names.code_points s)
    = Names.code_points (Names.title_from p s).
Proof.
  unfold ascii_name.
  induction s as [|a rest IH]; intros data i p Hs; [reflexivity|].
  change (Names.code_points (String a rest))
    with (N_of_ascii a :: Names.code_points rest) in *.
  inversion Hs as [|? ? Ha Hrest]; subst.
  destruct (Hascii _ Ha) as (Hc & Ht & Hl).
  destruct (ascii_tables_char a) as (Hletter & Hcap & Hsmall).
  rewrite title_from_step. cbn [do_title].
  rewrite Hc, Ht, Hl, Hletter, (IH _ _ _ Hrest), Hcap, Hsmall.
  now destruct p.
Qed.

Lemma normalize_agrees_on_ascii (s : string) :
  ascii_name s ->
  normalize is_cased to_title_full lower_ucs4 (Names.code_points s)
  = Names.code_points (Names.normalize s).
Proof.
  intros Hs. unfold normalize, title. rewrite (do_title_ascii s _ _ _ Hs).
  unfold Names.name_fixes_cp. rewrite dict_get_code_points.
  unfold Names.normalize, Names.replace, Names.title.
  now destruct (Names.dict_get Names.name_fixes (Names.title_from false s)).
Qed.

Lemma title_ascii_title_case (x : list N) :
  Forall (fun c => (c < 128)%N) x ->
  title is_cased to_title_full lower_ucs4 x = ascii_title_case x.
Proof.
  intros Hx. rewrite title_is_title_case. unfold title_case, ascii_title_case.
  apply flat_map_singletons. intros i Hi. apply in_seq in Hi as [_ Hi]. cbn in Hi.
  assert (Hnth : forall j, (j < List.length x)%nat ->
                           nth_error x j = Some (nth j x 0%N) /\ (nth j x 0 < 128)%N).
  { intros j Hj. split; [now apply nth_error_nth'|].
    rewrite Forall_forall in Hx. apply Hx. now apply nth_In. }
  destruct (Hnth i Hi) as [Hci Hlt].
  destruct (Hascii _ Hlt) as (_ & Ht & Hl).
  unfold title_case_piece. rewrite Hci, Ht, Hl.
  assert (Hstart : starts_word is_cased x i = ascii_word_start x i).
  { destruct i as [|j]; [reflexivity|]. cbn [starts_word ascii_word_start].
    destruct (Hnth j ltac:(lia)) as [Hcj Hltj]. rewrite Hcj.
    now destruct (Hascii _ Hltj) as (-> & _). }
  rewrite Hstart. now destruct (ascii_word_start x i).
Qed.

End AsciiTableFacts.

(** The tables of [Names.do_title] are Unicode's on the ASCII range. *)
Lemma fragment_on_ascii :
  Unicode.on_ascii Names.cp_is_cased Names.to_title_full
                   (fun _ _ c => Names.to_lower_full c).
Proof.
  intros c Hc.
  assert (Hc' : (c < 256)%N) by lia.
  rewrite <- (N_ascii_embedding c Hc') in Hc |- *.
  revert Hc. generalize (ascii_of_N c). clear.
  intros a. destruct a as [[] [] [] [] [] [] [] []]; intro Hc;
    try (vm_compute in Hc; discriminate Hc);
    vm_compute; repeat split.
Qed.

(** C3: whatever the Unicode tables, [normalize] title-cases the raw name
    (a character that starts a word goes through the title-case mapping, any
    other through the lower-case mapping) and then applies the remapping
    table: a title-cased name that is a key of the table becomes its value,
    any other passes through as title-cased.  With Unicode's tables on the
    ASCII range, a name of ASCII characters gets the capital of each first
    letter of a word and the small letter of every other letter, the
    pipeline's [Names.normalize] computes the same name, and the names of
    the scenario come out as stated. *)
Theorem normalize_title_then_remap
        (is_cased : N -> bool) (to_title_full : N -> list N)
        (lower_ucs4 : list N -> nat -> N -> list N) (raw : list N) :
  Unicode.title is_cased to_title_full lower_ucs4 raw
  = Unicode.title_case is_cased to_title_full lower_ucs4 raw /\
  (forall v,
      In (Unicode.title is_cased to_title_full lower_ucs4 raw, v) Names.name_fixes_cp ->
      Unicode.normalize is_cased to_title_full lower_ucs4 raw = v) /\
  (~ In (Unicode.title is_cased to_title_full lower_ucs4 raw)
        (map fst Names.name_fixes_cp) ->
   Unicode.normalize is_cased to_title_full lower_ucs4 raw
   = Unicode.title is_cased to_title_full lower_ucs4 raw) /\
  (Unicode.on_ascii is_cased to_title_full lower_ucs4 ->
   (Forall (fun c => (c < 128)%N) raw ->
    Unicode.title is_cased to_title_full lower_ucs4 raw = Unicode.ascii_title_case raw) /\
   (forall s, Unicode.ascii_name s ->
              Unicode.normalize is_cased to_title_full lower_ucs4 (Names.code_points s)
              = Names.code_points (Names.normalize s)) /\
   Unicode.normalize is_cased to_title_full lower_ucs4
                     (Names.code_points "RUSSIAN FEDERATION")
   = Names.code_points "Russia" /\
   Unicode.normalize is_cased to_title_full lower_ucs4
                     (Names.code_points "KOREA, SOUTH")
   = Names.code_points "South Korea" /\
   Unicode.normalize is_cased to_title_full lower_ucs4 (Names.code_points "FRANCE")
   = Names.code_points "France" /\
   Unicode.normalize is_cased to_title_full lower_ucs4 (Names.code_points "france")
   = Names.code_points "France" /\
   Unicode.normalize is_cased to_title_full lower_ucs4
                     (Names.code_points "cote d'ivoire")
   = Names.code_points "Cote D'Ivoire").
Proof.
  split; [apply title_is_title_case|]. split; [|split].
  - intros v Hin. unfold Unicode.normalize.
    now rewrite (dict_get_cp_first _ _ _ name_fixes_cp_keys_distinct Hin).
  - intros Hn. unfold Unicode.normalize. now rewrite (dict_get_cp_none _ _ Hn).
  - intros Hascii.
    split; [now apply title_ascii_title_case|].
    split; [intros s Hs; now apply normalize_agrees_on_ascii|].
    repeat split;
      (rewrite normalize_agrees_on_ascii;
       [reflexivity|exact Hascii|vm_compute; repeat constructor]).
Qed.

Lemma normalize_title_then_remap_witness :
  Unicode.normalize Names.cp_is_cased Names.to_title_full
                    (fun _ _ c => Names.to_lower_full c)
                    (Names.code_points "korea, south")
  = Names.code_points "South Korea" /\
  Unicode.title Names.cp_is_cased Names.to_title_full
                (fun _ _ c => Names.to_lower_full c)
                (Names.code_points "korea, south")
  = Unicode.ascii_title_case (Names.code_points "korea, south").
Proof.
  destruct (normalize_title_then_remap
              Names.cp_is_cased Names.to_title_full
              (fun _ _ c => Names.to_lower_full c)
              (Names.code_points "korea, south"))
    as (_ & Hkey & _ & Hon).
  split.
  - apply Hkey. vm_compute. tauto.
  - apply (proj1 (Hon fragment_on_ascii)). vm_compute. repeat constructor.
Defined.

(** C8: on a name made of ASCII characters [normalize] is idempotent:
    normalising a normalised name changes nothing. *)
Theorem normalize_idempotent_ascii (x : list N) :
  Forall (fun c => (c < 128)%N) x ->
  Names.normalize_cp (Names.normalize_cp x) = Names.normalize_cp x.
Proof.
  intros Hascii.
  assert (Hx : Names.code_points (Names.of_code_points x) = x).
  { apply code_points_of_code_points.
    eapply Forall_impl; [|exact Hascii]. cbn. intros c Hc. lia. }
  rewrite <- Hx. rewrite !normalize_code_points.
  now rewrite normalize_idempotent_one_byte.
Qed.

Lemma normalize_idempotent_ascii_witness :
  Names.normalize_cp (Names.normalize_cp (Names.code_points "KOREA, SOUTH"))
  = Names.normalize_cp (Names.code_points "KOREA, SOUTH").
Proof.
  apply normalize_idempotent_ascii.
  vm_compute. repeat constructor.
Defined.

(** C8, as stated, fails outside ASCII.  In "A", U+0130, "B" the capital I
    with dot follows a letter, so it is lower-cased to "i" and the combining
    dot U+0307; on the second pass the dot is not a cased character, so the
    "b" after it starts a word and is capitalised. *)
Lemma normalize_twice_after_dotted_capital_I :
  Names.normalize_cp [65; 304; 66]%N = [65; 105; 775; 98]%N /\
  Names.normalize_cp (Names.normalize_cp [65; 304; 66]%N) = [65; 105; 775; 66]%N /\
  Names.normalize_cp (Names.normalize_cp [65; 304; 66]%N)
  <> Names.normalize_cp [65; 304; 66]%N.
Proof.
  split; [reflexivity|]. split; [reflexivity|].
  vm_compute. discriminate.
Qed.

Section JoinFacts.
Import Joiner.

Lemma tariff_of_fill_matched (e : tariff_entry) (r : trade_row) :
  tariff_of (fill_trade (matched e r)) = e.
Proof. now destruct e. Qed.

Lemma tariff_of_fill_unmatched (e : tariff_entry) :
  tariff_of (fill_trade (unmatched e)) = e.
Proof. now destruct e. Qed.

Lemma merge_left_row_cases (rows : list trade_row) (e : tariff_entry) :
  (filter (name_matches e) rows = [] /\ merge_left_row rows e = [unmatched e]) \/
  (filter (name_matches e) rows <> [] /\
   merge_left_row rows e = map (matched e) (filter (name_matches e) rows)).
Proof.
  unfold merge_left_row.
  destruct (filter (name_matches e) rows); [left|right]; split; congruence.
Qed.

Lemma tariff_of_row (rows : list trade_row) (e : tariff_entry) :
  map tariff_of (map fill_trade (merge_left_row rows e))
  = repeat e (Nat.max 1 (matches rows e)).
Proof.
  unfold matches.
  destruct (merge_left_row_cases rows e) as [[Hf ->]|[Hf ->]].
  - rewrite Hf. cbn. now rewrite tariff_of_fill_unmatched.
  - destruct (filter (name_matches e) rows) as [|r ms]; [congruence|].
    replace (Nat.max 1 (List.length (r :: ms))) with (List.length (r :: ms))
      by (cbn; lia).
    generalize (r :: ms) as l. clear.
    induction l as [|x l IH]; cbn; [reflexivity|].
    rewrite tariff_of_fill_matched. now f_equal.
Qed.

(** Every left row comes out, in order, once per match and at least once. *)
Lemma tariff_of_merge_left (t : list tariff_entry) (rows : list trade_row) :
  map tariff_of (map fill_trade (merge_left t rows))
  = flat_map (fun e => repeat e (Nat.max 1 (matches rows e))) t.
Proof.
  unfold merge_left.
  induction t as [|e t IH]; [reflexivity|].
  cbn [flat_map]. rewrite !map_app, IH, tariff_of_row. reflexivity.
Qed.

Lemma in_join_inv (t : list tariff_entry) (rows : list trade_row) (j : joined_row) :
  In j (map fill_trade (merge_left t rows)) ->
  exists e, In e t /\ tariff_of j = e /\
            (j = fill_trade (unmatched e) /\ filter (name_matches e) rows = [] \/
             exists r, In r rows /\ name_matches e r = true /\
                       j = fill_trade (matched e r)).
Proof.
  intros Hin. apply in_map_iff in Hin as (x & <- & Hx).
  unfold merge_left in Hx. apply in_flat_map in Hx as (e & He & Hx).
  exists e. split; [assumption|].
  destruct (merge_left_row_cases rows e) as [[Hf Hm]|[_ Hm]]; rewrite Hm in Hx.
  - destruct Hx as [<-|[]]. split; [apply tariff_of_fill_unmatched|]. now left.
  - apply in_map_iff in Hx as (r & <- & Hr). apply filter_In in Hr as [Hr Hn].
    split; [apply tariff_of_fill_matched|]. right. now exists r.
Qed.

Lemma no_match_filter (rows : list trade_row) (e : tariff_entry) :
  (forall r, In r rows -> Country_Name r <> OStr (t_country_name e)) ->
  filter (name_matches e) rows = [].
Proof.
  intros Hno. induction rows as [|r rows IH]; [reflexivity|].
  cbn [filter].
  assert (Hr : name_matches e r = false).
  { unfold name_matches. specialize (Hno r (or_introl eq_refl)).
    destruct (Country_Name r) as [|s|z]; try reflexivity.
    destruct (String.eqb_spec s (t_country_name e)) as [->|_]; congruence. }
  rewrite Hr. apply IH. intros r' Hr'. apply Hno. now right.
Qed.

Lemma fillna_float_not_nan (x : float) :
  is_nan x = false -> Fetcher.fillna_float x = x.
Proof. unfold Fetcher.fillna_float. now intros ->. Qed.

Lemma fillna_float_is_number (x : float) :
  is_nan (Fetcher.fillna_float x) = false.
Proof.
  unfold Fetcher.fillna_float. destruct (is_nan x) eqn:H; [reflexivity|assumption].
Qed.

Lemma eqb_self (x : float) : is_nan x = false -> (x =? x)%float = true.
Proof. unfold is_nan. now destruct (x =? x)%float. Qed.

End JoinFacts.

Lemma bind_ok {A B} (m : result A) (k : A -> result B) (b : B) :
  bind m k = Ok b -> exists a, m = Ok a /\ k a = Ok b.
Proof. destruct m as [a|e]; cbn; [eauto|discriminate]. Qed.

Ltac bind_inv H :=
  let a := fresh "a" in
  let Ha := fresh "Ha" in
  apply bind_ok in H as (a & Ha & H).

Section PipelineFacts.
Import Fetcher.
Variable str_to_float : string -> option float.

Lemma reconcile_rows (L : list exp_row) (R : list imp_row) (rows : list trade_row) :
  reconcile L R = Ok rows -> rows = map finish_row (merge_outer L R).
Proof.
  unfold reconcile. intros H. bind_inv H. now injection H as <-.
Qed.

Lemma try_body_rows (net : network) (current_year : Z) (rows : list trade_row) :
  try_body str_to_float net current_year = Ok rows ->
  exists L R, rows = map finish_row (merge_outer L R).
Proof.
  unfold try_body, process. intros H.
  do 6 bind_inv H. eauto using reconcile_rows.
Qed.

(** A row that leaves the fetcher has numbers as exports and imports, and
    their difference as balance. *)
Lemma finish_row_balance (m : merged_row) :
  Balance (finish_row m) = (Exports (finish_row m) - Imports (finish_row m))%float /\
  is_nan (Exports (finish_row m)) = false /\
  is_nan (Imports (finish_row m)) = false.
Proof.
  cbn. auto using fillna_float_is_number.
Qed.

End PipelineFacts.

(** C1: the left merge walks the tariff entries in order and gives each one
    a row per trade record that bears its name, and one row when there is
    none; so when no entry matches two trade records, the output has exactly
    one row per tariff entry, in the order of the entries. *)
Theorem left_join_one_row_per_entry (t : list tariff_entry) (rows : list trade_row) :
  exists out,
    Joiner.join t (Trade rows) = Ok out /\
    map Joiner.tariff_of out
    = flat_map (fun e => repeat e (Nat.max 1 (Joiner.matches rows e))) t /\
    ((forall e, In e t -> (Joiner.matches rows e <= 1)%nat) ->
     map Joiner.tariff_of out = t /\ List.length out = List.length t).
Proof.
  exists (map Joiner.fill_trade (Joiner.merge_left t rows)).
  split; [reflexivity|]. split; [apply tariff_of_merge_left|].
  intros Hone.
  assert (Hmap : map Joiner.tariff_of
                     (map Joiner.fill_trade (Joiner.merge_left t rows)) = t).
  { rewrite tariff_of_merge_left.
    induction t as [|e t IH]; [reflexivity|]. cbn [flat_map].
    rewrite IH by (intros e' He'; apply Hone; now right).
    specialize (Hone e (or_introl eq_refl)).
    replace (Nat.max 1 (Joiner.matches rows e)) with 1%nat by lia.
    reflexivity. }
  split; [exact Hmap|].
  transitivity (List.length (map Joiner.tariff_of
                  (map Joiner.fill_trade (Joiner.merge_left t rows)))).
  - symmetry. apply length_map.
  - now rewrite Hmap.
Qed.

Lemma left_join_one_row_per_entry_witness :
  exists out,
    Joiner.join [mk_tariff "China" 19.3 "Trade War" "CHN"]
                (Trade [mk_trade (OStr "5700") (OStr "CHINA") 100 400 (-300) (OStr "China");
                        mk_trade (OStr "4280") (OStr "GERMANY") 50 0 50 (OStr "Germany")])
    = Ok out /\ List.length out = 1%nat.
Proof.
  destruct (left_join_one_row_per_entry
              [mk_tariff "China" 19.3 "Trade War" "CHN"]
              [mk_trade (OStr "5700") (OStr "CHINA") 100 400 (-300) (OStr "China");
               mk_trade (OStr "4280") (OStr "GERMANY") 50 0 50 (OStr "Germany")])
    as (out & Hjoin & _ & Hone).
  exists out. split; [exact Hjoin|].
  apply Hone. intros e [<-|[]]. vm_compute. lia.
Defined.

(** C1, as stated, fails: two trade records that bear the same name give
    the tariff entry two rows.  First on the merge alone, then on a run of the
    script whose exports table lists China under two codes. *)
Lemma left_join_duplicate_names :
  ~ (forall t rows out,
        Joiner.join t (Trade rows) = Ok out -> List.length out = List.length t) /\
  (exists out,
     App.page (App.main Sample.str_to_float
                 (Sample.serve
                    (Table [Sample.header_exp;
                            Sample.cells ["5700"; "CHINA"; "100000000000"; "2024"];
                            Sample.cells ["5820"; "CHINA"; "7000000000"; "2024"]])
                    (Table [Sample.header_imp;
                            Sample.cells ["5700"; "CHINA"; "400000000000"; "2024"]]))
                 (App.mk_clock 0 2025) None)
     = App.Dashboard out /\
     List.length out = 14%nat /\ List.length Tariff.get_tariff_data = 13%nat).
Proof.
  split.
  - intros Hone.
    specialize (Hone [mk_tariff "China" 19.3 "Trade War" "CHN"]
                     [mk_trade (OStr "5700") (OStr "CHINA") 100 400 (-300) (OStr "China");
                      mk_trade (OStr "5820") (OStr "CHINA") 7 0 7 (OStr "China")]
                     _ eq_refl).
    vm_compute in Hone. discriminate.
  - eexists. repeat split; vm_compute; reflexivity.
Qed.

(** C6: a tariff entry that no trade record matches comes out as one row
    whose exports, imports and balance are 0.0 and whose name, rate, category
    and ISO code are the entry's; every output row carries the four fields of
    some tariff entry.  In particular China, joined with a trade table that
    has no row, gives China with three zeros. *)
Theorem unmatched_entry_zero_filled
        (t : list tariff_entry) (rows : list trade_row) (e : tariff_entry) :
  In e t ->
  (forall r, In r rows -> Country_Name r <> OStr (t_country_name e)) ->
  exists out,
    Joiner.join t (Trade rows) = Ok out /\
    In (mk_joined (t_country_name e) (t_tariff_rate e) (t_category e) (t_iso_alpha_3 e)
                  ONaN ONaN 0 0 0) out /\
    (forall j, In j out -> Joiner.tariff_of j = e ->
               j_exports j = 0%float /\ j_imports j = 0%float /\ j_balance j = 0%float) /\
    (forall j, In j out -> In (Joiner.tariff_of j) t) /\
    Joiner.join [mk_tariff "China" 19.3 "Trade War" "CHN"] (Trade [])
    = Ok [mk_joined "China" 19.3 "Trade War" "CHN" ONaN ONaN 0 0 0].
Proof.
  intros He Hno.
  pose proof (no_match_filter rows e Hno) as Hf.
  exists (map Joiner.fill_trade (Joiner.merge_left t rows)).
  split; [reflexivity|]. split; [|split; [|split]].
  - apply in_map_iff. exists (Joiner.unmatched e). split; [reflexivity|].
    unfold Joiner.merge_left. apply in_flat_map. exists e. split; [assumption|].
    unfold Joiner.merge_left_row. rewrite Hf. now left.
  - intros j Hj Hje.
    apply in_join_inv in Hj as (e' & _ & He' & Hcase).
    rewrite Hje in He'. subst e'.
    destruct Hcase as [[-> _]|(r & Hr & Hm & _)].
    + repeat split.
    + exfalso. assert (Hin : In r (filter (Joiner.name_matches e) rows))
        by (apply filter_In; split; assumption).
      rewrite Hf in Hin. exact Hin.
  - intros j Hj. apply in_join_inv in Hj as (e' & He' & -> & _). exact He'.
  - reflexivity.
Qed.

Lemma unmatched_entry_zero_filled_witness :
  exists out,
    Joiner.join [mk_tariff "China" 19.3 "Trade War" "CHN";
                 mk_tariff "Japan" 0 "FTA Partner" "JPN"]
                (Trade [mk_trade (OStr "5700") (OStr "CHINA") 100 400 (-300) (OStr "China")])
    = Ok out /\
    In (mk_joined "Japan" 0 "FTA Partner" "JPN" ONaN ONaN 0 0 0) out.
Proof.
  destruct (unmatched_entry_zero_filled
              [mk_tariff "China" 19.3 "Trade War" "CHN";
               mk_tariff "Japan" 0 "FTA Partner" "JPN"]
              [mk_trade (OStr "5700") (OStr "CHINA") 100 400 (-300) (OStr "China")]
              (mk_tariff "Japan" 0 "FTA Partner" "JPN"))
    as (out & Hjoin & Hin & _).
  - cbn. tauto.
  - intros r [<-|[]]. cbn. discriminate.
  - exists out. split; assumption.
Defined.

(** C7: on the rows the fetcher returns, every joined row whose exports
    minus imports is a number (not NaN) has exactly that difference as its
    balance; this covers the rows filled with zeros. *)
Theorem balance_is_exports_minus_imports
        (str_to_float : string -> option float) (net : network) (current_year : Z)
        (t : list tariff_entry) (rows : list trade_row) (out : list joined_row)
        (j : joined_row) :
  Fetcher.try_body str_to_float net current_year = Ok rows ->
  Joiner.join t (Trade rows) = Ok out ->
  In j out ->
  is_nan (j_exports j - j_imports j)%float = false ->
  j_balance j = (j_exports j - j_imports j)%float /\
  (j_balance j =? j_exports j - j_imports j)%float = true.
Proof.
  intros Hbody Hjoin Hj Hnum.
  assert (Heq : j_balance j = (j_exports j - j_imports j)%float).
  { apply try_body_rows in Hbody as (L & R & ->).
    injection Hjoin as <-.
    apply in_join_inv in Hj as (e & _ & _ & [[-> _]|(r & Hr & _ & ->)]).
    - reflexivity.
    - apply in_map_iff in Hr as (m & <- & _).
      destruct (finish_row_balance m) as (Hb & He & Hi).
      cbn [Joiner.fill_trade Joiner.matched j_balance j_exports j_imports] in *.
      rewrite (fillna_float_not_nan _ He), (fillna_float_not_nan _ Hi) in *.
      rewrite Hb. now apply fillna_float_not_nan. }
  split; [exact Heq|]. rewrite Heq. now apply eqb_self.
Qed.

Lemma balance_is_exports_minus_imports_witness :
  (-300 = 100 - 400)%float /\ ((-300) =? 100 - 400)%float = true.
Proof.
  apply (balance_is_exports_minus_imports
           Sample.str_to_float
           (Sample.serve
              (Table [Sample.header_exp;
                      Sample.cells ["5700"; "CHINA"; "100000000000"; "2024"]])
              (Table [Sample.header_imp;
                      Sample.cells ["5700"; "CHINA"; "400000000000"; "2024"]]))
           2025
           [mk_tariff "China" 19.3 "Trade War" "CHN"]
           [mk_trade (OStr "5700") (OStr "CHINA") 100 400 (-300) (OStr "China")]
           [mk_joined "China" 19.3 "Trade War" "CHN" (OStr "5700") (OStr "CHINA")
                      100 400 (-300)]
           (mk_joined "China" 19.3 "Trade War" "CHN" (OStr "5700") (OStr "CHINA")
                      100 400 (-300))).
  - vm_compute. reflexivity.
  - vm_compute. reflexivity.
  - left. reflexivity.
  - vm_compute. reflexivity.
Defined.

(** C7, as stated, fails when both values are infinite: the difference is
    NaN, and line 133 turns the balance into 0. *)
Lemma balance_of_two_infinities :
  exists out j,
    App.page (App.main Sample.str_to_float
                (Sample.serve
                   (Table [Sample.header_exp; Sample.cells ["5700"; "CHINA"; "inf"; "2024"]])
                   (Table [Sample.header_imp; Sample.cells ["5700"; "CHINA"; "inf"; "2024"]]))
                (App.mk_clock 0 2025) None)
    = App.Dashboard out /\
    In j out /\
    j_country_name j = "China" /\
    j_exports j = infinity /\ j_imports j = infinity /\ j_balance j = 0%float /\
    (j_balance j =? j_exports j - j_imports j)%float = false.
Proof.
  eexists. eexists. split; [vm_compute; reflexivity|].
  split; [right; right; left; reflexivity|].
  repeat split.
Qed.

Section MergeFacts.
Import Fetcher.

Lemma key_eqb_eq (a b : option string) : key_eqb a b = true <-> a = b.
Proof.
  destruct a as [x|], b as [y|]; cbn; try (split; congruence).
  rewrite String.eqb_eq. split; congruence.
Qed.

Lemma in_insert_key (k : option string) (l : list (option string)) (x : option string) :
  In x (insert_key k l) <-> x = k \/ In x l.
Proof.
  induction l as [|k' l IH]; cbn; [intuition|].
  destruct (key_eqb k k') eqn:Heq.
  - apply key_eqb_eq in Heq. subst k'. cbn. intuition.
  - destruct (key_leb k k'); cbn; [intuition|]. rewrite IH. intuition.
Qed.

Lemma in_sorted_keys (ks : list (option string)) (x : option string) :
  In x (sorted_keys ks) <-> In x ks.
Proof.
  unfold sorted_keys. induction ks as [|k ks IH]; cbn; [tauto|].
  rewrite in_insert_key, IH. intuition.
Qed.

Lemma filter_exp_nonempty (L : list exp_row) (k : option string) :
  In k (map e_code L) -> filter (fun l => key_eqb (e_code l) k) L <> [].
Proof.
  intros Hin Hnil. apply in_map_iff in Hin as (l & Hk & Hl).
  assert (Hf : In l (filter (fun l => key_eqb (e_code l) k) L)).
  { apply filter_In. split; [assumption|]. now apply key_eqb_eq. }
  rewrite Hnil in Hf. exact Hf.
Qed.

Lemma filter_imp_nonempty (R : list imp_row) (k : option string) :
  In k (map i_code R) -> filter (fun r => key_eqb (i_code r) k) R <> [].
Proof.
  intros Hin Hnil. apply in_map_iff in Hin as (r & Hk & Hr).
  assert (Hf : In r (filter (fun r => key_eqb (i_code r) k) R)).
  { apply filter_In. split; [assumption|]. now apply key_eqb_eq. }
  rewrite Hnil in Hf. exact Hf.
Qed.

(** Where a row of the block of key [k] takes its fields from. *)
Lemma in_merge_key (L : list exp_row) (R : list imp_row) (k : option string)
      (m : merged_row) :
  In m (merge_key L R k) ->
  m_code m = k /\
  ((~ In k (map e_code L) /\ m_name m = None /\ m_exports m = nan /\
    exists r, In r R /\ i_code r = k /\ m_imports m = i_imports r) \/
   (~ In k (map i_code R) /\ m_imports m = nan /\
    exists l, In l L /\ e_code l = k /\ m_name m = e_name l /\
              m_exports m = e_exports l) \/
   (exists l r, In l L /\ e_code l = k /\ In r R /\ i_code r = k /\
                m_name m = e_name l /\ m_exports m = e_exports l /\
                m_imports m = i_imports r)).
Proof.
  unfold merge_key.
  destruct (filter (fun l => key_eqb (e_code l) k) L) as [|l0 ls] eqn:HL.
  - intros Hin. apply in_map_iff in Hin as (r & <- & Hr).
    apply filter_In in Hr as [Hr Hk]. apply key_eqb_eq in Hk.
    split; [reflexivity|]. left. split.
    + intro Hc. now apply filter_exp_nonempty in Hc.
    + cbn. eauto 6.
  - destruct (filter (fun r => key_eqb (i_code r) k) R) as [|r0 rs] eqn:HR.
    + intros Hin. apply in_map_iff in Hin as (l & <- & Hl).
      rewrite <- HL in Hl. apply filter_In in Hl as [Hl Hk]. apply key_eqb_eq in Hk.
      split; [reflexivity|]. right. left. split.
      * intro Hc. now apply filter_imp_nonempty in Hc.
      * cbn. eauto 7.
    + intros Hin. apply in_flat_map in Hin as (l & Hl & Hin).
      apply in_map_iff in Hin as (r & <- & Hr).
      rewrite <- HL in Hl. rewrite <- HR in Hr.
      apply filter_In in Hl as [Hl Hkl]. apply filter_In in Hr as [Hr Hkr].
      apply key_eqb_eq in Hkl, Hkr.
      split; [reflexivity|]. right. right. exists l, r. cbn. auto 8.
Qed.

Lemma merge_key_nonempty (L : list exp_row) (R : list imp_row) (k : option string) :
  In k (map e_code L) \/ In k (map i_code R) ->
  exists m, In m (merge_key L R k) /\ m_code m = k.
Proof.
  intros Hk. unfold merge_key.
  destruct (filter (fun l => key_eqb (e_code l) k) L) as [|l0 ls] eqn:HL;
    destruct (filter (fun r => key_eqb (i_code r) k) R) as [|r0 rs] eqn:HR.
  - exfalso. destruct Hk as [Hk|Hk].
    + now apply filter_exp_nonempty in Hk.
    + now apply filter_imp_nonempty in Hk.
  - eexists. split; [left; reflexivity|reflexivity].
  - eexists. split; [left; reflexivity|reflexivity].
  - eexists. split; [left; reflexivity|reflexivity].
Qed.

Lemma in_merge_outer (L : list exp_row) (R : list imp_row) (m : merged_row) :
  In m (merge_outer L R) <->
  exists k, (In k (map e_code L) \/ In k (map i_code R)) /\ In m (merge_key L R k).
Proof.
  unfold merge_outer. rewrite in_flat_map.
  split; intros (k & Hk & Hm); exists k; split; try assumption.
  - apply (proj1 (in_sorted_keys _ _)) in Hk. now apply in_app_or in Hk.
  - apply in_sorted_keys. now apply in_or_app.
Qed.

Lemma fillna_obj_str (k : option string) (c : string) :
  fillna_obj k = OStr c <-> k = Some c.
Proof. destruct k; cbn; split; congruence. Qed.

End MergeFacts.

Lemma trade_row_origin (L : list exp_row) (R : list imp_row) (row : trade_row)
      (c : string) :
  In row (map Fetcher.finish_row (Fetcher.merge_outer L R)) ->
  CTY_CODE row = OStr c ->
  exists m, row = Fetcher.finish_row m /\ In m (Fetcher.merge_key L R (Some c)).
Proof.
  intros Hin Hc. apply in_map_iff in Hin as (m & <- & Hm).
  apply in_merge_outer in Hm as (k & _ & Hm).
  pose proof (in_merge_key _ _ _ _ Hm) as [Hk _].
  cbn in Hc. rewrite Hk in Hc. apply fillna_obj_str in Hc. subst k.
  now exists m.
Qed.

(** C2: in [df_merged], the outer merge on the country code followed by
    [fillna(0)], a code found in either table has a row; a code found only in
    the imports table has exports 0 and an imports value of that table; a
    code found only in the exports table has imports 0 and an exports value
    of that table; and a code found in the exports table carries the name of
    an exports record of that code.  These are the rows the fetcher returns
    whenever the reconciliation returns. *)
Theorem outer_merge_zero_fills
        (L : list exp_row) (R : list imp_row) (c : string) :
  (forall rows, Fetcher.reconcile L R = Ok rows -> rows = df_merged L R) /\
  (In (Some c) (map e_code L) \/ In (Some c) (map i_code R) ->
   exists row, In row (df_merged L R) /\ CTY_CODE row = OStr c) /\
  (~ In (Some c) (map e_code L) ->
   forall row, In row (df_merged L R) -> CTY_CODE row = OStr c ->
     Exports row = 0%float /\
     exists r, In r R /\ i_code r = Some c /\
               Imports row = Fetcher.fillna_float (i_imports r)) /\
  (~ In (Some c) (map i_code R) ->
   forall row, In row (df_merged L R) -> CTY_CODE row = OStr c ->
     Imports row = 0%float /\
     exists l, In l L /\ e_code l = Some c /\
               Exports row = Fetcher.fillna_float (e_exports l)) /\
  (In (Some c) (map e_code L) ->
   forall row, In row (df_merged L R) -> CTY_CODE row = OStr c ->
     exists l, In l L /\ e_code l = Some c /\
               CTY_NAME row = Fetcher.fillna_obj (e_name l)).
Proof.
  unfold df_merged.
  split; [intros rows; apply reconcile_rows|].
  split; [|split; [|split]].
  - intros Hc. destruct (merge_key_nonempty L R (Some c) Hc) as (m & Hm & Hk).
    exists (Fetcher.finish_row m). split.
    + apply in_map. apply in_merge_outer. eauto.
    + cbn. now rewrite Hk.
  - intros Hno row Hrow Hc.
    destruct (trade_row_origin _ _ _ _ Hrow Hc) as (m & -> & Hm).
    apply in_merge_key in Hm
      as (_ & [(_ & _ & Hx & r & Hr & Hk & Hi)
              |[(_ & _ & l & Hl & Hk & _)|(l & r & Hl & Hk & _)]]).
    + cbn. rewrite Hx, Hi. split; [reflexivity|]. eauto.
    + exfalso. apply Hno. rewrite <- Hk. now apply in_map.
    + exfalso. apply Hno. rewrite <- Hk. now apply in_map.
  - intros Hno row Hrow Hc.
    destruct (trade_row_origin _ _ _ _ Hrow Hc) as (m & -> & Hm).
    apply in_merge_key in Hm
      as (_ & [(_ & _ & _ & r & Hr & Hk & _)
              |[(_ & Hi & l & Hl & Hk & _ & Hx)|(l & r & _ & _ & Hr & Hk & _)]]).
    + exfalso. apply Hno. rewrite <- Hk. now apply in_map.
    + cbn. rewrite Hi, Hx. split; [reflexivity|]. eauto.
    + exfalso. apply Hno. rewrite <- Hk. now apply in_map.
  - intros Hyes row Hrow Hc.
    destruct (trade_row_origin _ _ _ _ Hrow Hc) as (m & -> & Hm).
    apply in_merge_key in Hm
      as (_ & [(Hno & _)
              |[(_ & _ & l & Hl & Hk & Hn & _)|(l & r & Hl & Hk & _ & _ & Hn & _)]]).
    + contradiction.
    + exists l. cbn. rewrite Hn. auto.
    + exists l. cbn. rewrite Hn. auto.
Qed.

Lemma outer_merge_zero_fills_witness :
  (exists row,
      In row (df_merged [] [mk_imp (Some "4280") 3]) /\ CTY_CODE row = OStr "4280") /\
  (forall row,
      In row (df_merged [] [mk_imp (Some "4280") 3]) -> CTY_CODE row = OStr "4280" ->
      Exports row = 0%float /\
      exists r, In r [mk_imp (Some "4280") 3] /\ i_code r = Some "4280" /\
                Imports row = Fetcher.fillna_float (i_imports r)).
Proof.
  destruct (outer_merge_zero_fills [] [mk_imp (Some "4280") 3] "4280")
    as (_ & Hrow & Himp & _).
  split.
  - apply Hrow. right. left. reflexivity.
  - apply Himp. intros [].
Defined.

(** C2, as stated, fails on the name: a country that only the imports table
    lists has its name there, and the returned row does not carry it. *)
Lemma imports_only_name_not_carried :
  exists rows row,
    Fetcher.try_body Sample.str_to_float
      (Sample.serve
         (Table [Sample.header_exp;
                 Sample.cells ["5700"; "CHINA"; "100000000000"; "2024"]])
         (Table [Sample.header_imp;
                 Sample.cells ["5700"; "CHINA"; "400000000000"; "2024"];
                 Sample.cells ["4280"; "GERMANY"; "3000000000"; "2024"]]))
      2025 = Ok rows /\
    In row rows /\
    CTY_CODE row = OStr "4280" /\
    Exports row = 0%float /\ Imports row = 3%float /\
    CTY_NAME row = OInt 0 /\ Country_Name row = ONaN /\
    (forall r, In r rows ->
               CTY_NAME r <> OStr "GERMANY" /\ Country_Name r <> OStr "Germany").
Proof.
  eexists. eexists. split; [vm_compute; reflexivity|].
  split; [left; reflexivity|]. do 5 (split; [reflexivity|]).
  intros r [<-|[<-|[]]]; split; discriminate.
Qed.

Section FrameFacts.
Import Fetcher Layout.

Lemma width_rectangular (n : nat) (rows : list (list (option string))) :
  rows <> [] -> Forall (fun r => List.length r = n) rows -> width rows = n.
Proof.
  intros Hne Hall. unfold width.
  induction Hall as [|r rows Hr Hall IH]; [congruence|].
  cbn [fold_right]. rewrite Hr. destruct rows as [|r' rows'].
  - cbn. lia.
  - rewrite IH by discriminate. lia.
Qed.

Lemma pad_rectangular (n : nat) (rows : list (list (option string))) :
  Forall (fun r => List.length r = n) rows -> map (pad n) rows = rows.
Proof.
  intros Hall. induction Hall as [|r rows Hr Hall IH]; [reflexivity|].
  cbn. rewrite IH. unfold pad. rewrite Hr, Nat.sub_diag. cbn.
  now rewrite app_nil_r.
Qed.

Lemma make_frame_rectangular (h : list (option string)) (rows : payload) :
  rows <> [] -> Forall (fun r => List.length r = List.length h) rows ->
  make_frame (Table (h :: rows)) = Ok (mk_frame h rows).
Proof.
  intros Hne Hall. destruct rows as [|r rows]; [congruence|].
  cbn [make_frame]. rewrite (width_rectangular _ _ Hne Hall), Nat.eqb_refl.
  now rewrite (pad_rectangular _ _ Hall).
Qed.

Lemma label_eqb_eq (label : string) (c : option string) :
  label_eqb label c = true <-> c = Some label.
Proof.
  destruct c as [s|]; cbn; [|split; congruence].
  rewrite String.eqb_eq. split; congruence.
Qed.

Lemma occurrences_zero (label : string) (cols : list (option string)) :
  ~ In (Some label) cols -> occurrences label cols = 0%nat.
Proof.
  unfold occurrences. induction cols as [|c cols IH]; cbn; [reflexivity|].
  intros Hn. destruct (label_eqb label c) eqn:Hc.
  - apply label_eqb_eq in Hc. tauto.
  - apply IH. tauto.
Qed.

Lemma occurrences_pos (label : string) (cols : list (option string)) (i : nat) :
  nth_error cols i = Some (Some label) -> (1 <= occurrences label cols)%nat.
Proof.
  unfold occurrences. revert i. induction cols as [|c cols IH]; intros [|i]; cbn;
    try discriminate.
  - intros [= ->]. cbn. rewrite String.eqb_refl. cbn. lia.
  - intros H. apply IH in H. destruct (label_eqb label c); cbn; lia.
Qed.

Lemma index_of_found (label : string) (cols : list (option string)) :
  (1 <= occurrences label cols)%nat ->
  nth_error cols (index_of label cols) = Some (Some label).
Proof.
  unfold occurrences. induction cols as [|c cols IH]; cbn; [lia|].
  destruct (label_eqb label c) eqn:Hc.
  - apply label_eqb_eq in Hc. now subst c.
  - exact IH.
Qed.

Lemma index_of_unique (label : string) (cols : list (option string)) :
  forall i, occurrences label cols = 1%nat ->
            nth_error cols i = Some (Some label) -> index_of label cols = i.
Proof.
  unfold occurrences. induction cols as [|c cols IH]; intros [|i]; cbn;
    try discriminate.
  - intros _ [= ->]. cbn. now rewrite String.eqb_refl.
  - destruct (label_eqb label c) eqn:Hc; cbn.
    + intros Hone Hi. apply occurrences_pos in Hi. unfold occurrences in Hi. lia.
    + intros Hone Hi. f_equal. now apply IH.
Qed.

Lemma column_at (h : list (option string)) (rows : payload) (label : string) (i : nat) :
  nth_error h i = Some (Some label) -> occurrences label h = 1%nat ->
  column (mk_frame h rows) label = Ok (map (fun r => nth i r None) rows).
Proof.
  intros Hi Hone. unfold column. cbn [columns values]. rewrite Hone.
  now rewrite (index_of_unique _ _ _ Hone Hi).
Qed.

Lemma column_absent (df : DataFrame) (label : string) :
  ~ In (Some label) (columns df) -> column df label = Raise (KeyError label).
Proof.
  intros Hn. unfold column. now rewrite (occurrences_zero _ _ Hn).
Qed.

(** *** Reordering the columns *)

Lemma permute_seq (r : list (option string)) :
  permute (seq 0 (List.length r)) r = r.
Proof.
  unfold permute. induction r as [|a r IH]; [reflexivity|].
  cbn [List.length seq map nth]. f_equal.
  rewrite <- seq_shift, map_map. exact IH.
Qed.

Lemma permute_permutation (p : list nat) (r : list (option string)) :
  Permutation p (seq 0 (List.length r)) -> Permutation (permute p r) r.
Proof.
  intros Hp. rewrite <- (permute_seq r) at 2.
  unfold permute. now apply Permutation_map.
Qed.

Lemma occurrences_permutation (label : string) (l l' : list (option string)) :
  Permutation l l' -> occurrences label l = occurrences label l'.
Proof.
  unfold occurrences.
  induction 1 as [|x l l' _ IH|x y l|l l' l'' _ IH1 _ IH2]; cbn.
  - reflexivity.
  - destruct (label_eqb label x); cbn; now rewrite IH.
  - destruct (label_eqb label x), (label_eqb label y); reflexivity.
  - now rewrite IH1.
Qed.

Lemma length_permute (p : list nat) (r : list (option string)) (n : nat) :
  Permutation p (seq 0 n) -> List.length (permute p r) = n.
Proof.
  intros Hp. unfold permute. rewrite length_map.
  rewrite (Permutation_length Hp). apply length_seq.
Qed.

(** Reading a column by its label gives the same cells after a reordering. *)
Lemma column_permute (p : list nat) (h : list (option string)) (rows : payload)
      (label : string) :
  Permutation p (seq 0 (List.length h)) ->
  column (mk_frame (permute p h) (map (permute p) rows)) label
  = column (mk_frame h rows) label.
Proof.
  intros Hp.
  pose proof (occurrences_permutation label _ _ (permute_permutation p h Hp)) as Hocc.
  unfold column. cbn [columns values]. rewrite Hocc.
  destruct (occurrences label h) as [|[|n]] eqn:Hn; try reflexivity.
  f_equal. rewrite map_map. apply map_ext. intros r.
  assert (Hj : nth_error (permute p h) (index_of label (permute p h)) = Some (Some label))
    by (apply index_of_found; lia).
  assert (Hi : nth_error h (index_of label h) = Some (Some label))
    by (apply index_of_found; lia).
  unfold permute at 1 in Hj. rewrite nth_error_map in Hj.
  destruct (nth_error p (index_of label (permute p h))) as [i|] eqn:Hpi;
    [|discriminate].
  cbn in Hj. injection Hj as Hj.
  assert (Hlt : (i < List.length h)%nat).
  { destruct (Nat.lt_ge_cases i (List.length h)) as [Hlt|Hge]; [assumption|].
    rewrite (nth_overflow _ _ Hge) in Hj. discriminate. }
  assert (Hih : nth_error h i = Some (Some label)).
  { rewrite (nth_error_nth' h None Hlt). now rewrite Hj. }
  rewrite (index_of_unique _ _ _ Hn Hih).
  apply nth_error_nth.
  change (permute p r) with (map (fun i => nth i r None) p).
  rewrite nth_error_map, Hpi. reflexivity.
Qed.

End FrameFacts.

Section ProcessFacts.
Import Fetcher Layout.
Variable str_to_float : string -> option float.

(** [process] looks at a frame through [column] and [occurrences] only. *)
Lemma process_ext (df df' : DataFrame) :
  (forall label, column df' label = column df label) ->
  (forall label, occurrences label (columns df') = occurrences label (columns df)) ->
  forall other,
    process str_to_float df' other = process str_to_float df other /\
    process str_to_float other df' = process str_to_float other df.
Proof.
  intros Hcol Hocc other.
  assert (Hval : forall a b, value_column str_to_float df' a b
                             = value_column str_to_float df a b).
  { intros a b. unfold value_column, assignable. now rewrite Hcol, Hocc. }
  assert (Hexp : forall xs, select_exp df' xs = select_exp df xs).
  { intros xs. unfold select_exp. now rewrite !Hcol. }
  assert (Himp : forall xs, select_imp df' xs = select_imp df xs).
  { intros xs. unfold select_imp. now rewrite !Hcol. }
  unfold process. rewrite !Hval. split.
  - destruct (value_column str_to_float df "ALL_VAL_YR" "Exports"); cbn [bind];
      [|reflexivity].
    destruct (value_column str_to_float other "GEN_VAL_YR" "Imports"); cbn [bind];
      [|reflexivity].
    now rewrite Hexp.
  - destruct (value_column str_to_float other "ALL_VAL_YR" "Exports"); cbn [bind];
      [|reflexivity].
    destruct (value_column str_to_float df "GEN_VAL_YR" "Imports"); cbn [bind];
      [|reflexivity].
    destruct (select_exp other a); cbn [bind]; [|reflexivity].
    now rewrite Himp.
Qed.

Lemma value_column_absent (df : DataFrame) (source new : string) :
  ~ In (Some source) (columns df) ->
  value_column str_to_float df source new = Raise (KeyError source).
Proof.
  intros Hn. unfold value_column. now rewrite (column_absent _ _ Hn).
Qed.

(** A frame that lacks a label the block reads makes the block raise. *)
Lemma process_missing (df_exp df_imp : DataFrame) (label : string) :
  In label read_from_exports /\ ~ In (Some label) (columns df_exp) \/
  In label read_from_imports /\ ~ In (Some label) (columns df_imp) ->
  exists e, process str_to_float df_exp df_imp = Raise e.
Proof.
  intros Hmiss. unfold process.
  destruct (value_column str_to_float df_exp "ALL_VAL_YR" "Exports")
    as [xs|e1] eqn:H1; cbn [bind]; [|eauto].
  destruct (value_column str_to_float df_imp "GEN_VAL_YR" "Imports")
    as [ys|e2] eqn:H2; cbn [bind]; [|eauto].
  destruct (select_exp df_exp xs) as [L|e3] eqn:H3; cbn [bind]; [|eauto].
  destruct (select_imp df_imp ys) as [R|e4] eqn:H4; cbn [bind]; [|eauto].
  exfalso.
  destruct Hmiss as [[Hin Hn]|[Hin Hn]]; cbn in Hin.
  - destruct Hin as [<-|[<-|[<-|[]]]].
    + rewrite (value_column_absent _ _ _ Hn) in H1. discriminate.
    + unfold select_exp in H3. rewrite (column_absent _ _ Hn) in H3. discriminate.
    + unfold select_exp in H3.
      destruct (column df_exp "CTY_CODE"); cbn [bind] in H3; [|discriminate].
      rewrite (column_absent _ _ Hn) in H3. discriminate.
  - destruct Hin as [<-|[<-|[]]].
    + rewrite (value_column_absent _ _ _ Hn) in H2. discriminate.
    + unfold select_imp in H4. rewrite (column_absent _ _ Hn) in H4. discriminate.
Qed.

End ProcessFacts.

(** C4: a table with a header row and one or more data rows of the
    header's length is parsed into one record per data row, a field being the
    cell under the header's label; reordering the columns changes neither the
    columns read by label nor the rows the fetcher returns.  When a table
    lacks a column the fetcher reads (exports: ALL_VAL_YR, CTY_CODE, CTY_NAME;
    imports: GEN_VAL_YR, CTY_CODE) the fetch fails: an error is reported and
    the blank frame returned. *)
Theorem header_driven_parse (h : list (option string)) (rows : payload) :
  rows <> [] ->
  Forall (fun r => List.length r = List.length h) rows ->
  exists df,
    Fetcher.make_frame (Table (h :: rows)) = Ok df /\
    List.length (values df) = List.length rows /\
    (forall label i,
        nth_error h i = Some (Some label) -> Fetcher.occurrences label h = 1%nat ->
        Fetcher.column df label = Ok (map (fun r => nth i r None) rows)) /\
    (forall p, Permutation p (seq 0 (List.length h)) ->
       exists df',
         Fetcher.make_frame (Table (Layout.permute_columns p (h :: rows))) = Ok df' /\
         (forall label, Fetcher.column df' label = Fetcher.column df label) /\
         (forall str_to_float other,
             Fetcher.process str_to_float df' other
             = Fetcher.process str_to_float df other /\
             Fetcher.process str_to_float other df'
             = Fetcher.process str_to_float other df)) /\
    (forall str_to_float net current_year df_exp df_imp label,
        Fetcher.fetch_frame net (Fetcher.params_exp (current_year - 1)) = Ok df_exp ->
        Fetcher.fetch_frame net (Fetcher.params_imp (current_year - 1)) = Ok df_imp ->
        In label Layout.read_from_exports /\ ~ In (Some label) (columns df_exp) \/
        In label Layout.read_from_imports /\ ~ In (Some label) (columns df_imp) ->
        exists e,
          Fetcher.get_census_trade_data str_to_float net current_year
          = Fetcher.mk_fetched [e] Blank).
Proof.
  intros Hne Hall. exists (mk_frame h rows).
  split; [now apply make_frame_rectangular|]. split; [reflexivity|].
  split; [intros label i; apply column_at|]. split.
  - intros p Hp. exists (mk_frame (Layout.permute p h) (map (Layout.permute p) rows)).
    assert (Hcol : forall label,
               Fetcher.column (mk_frame (Layout.permute p h) (map (Layout.permute p) rows))
                              label
               = Fetcher.column (mk_frame h rows) label)
      by (intro label; now apply column_permute).
    split; [|split; [exact Hcol|]].
    + unfold Layout.permute_columns. cbn [map].
      apply make_frame_rectangular.
      * destruct rows; [congruence|discriminate].
      * rewrite Forall_map. rewrite (length_permute p h _ Hp).
        apply Forall_forall. intros r _. now apply length_permute.
    + intros f other. apply process_ext; [exact Hcol|].
      intro label. cbn [columns].
      apply occurrences_permutation. now apply permute_permutation.
  - intros f net y df_exp df_imp label Hexp Himp Hmiss.
    destruct (process_missing f df_exp df_imp label Hmiss) as (e & He).
    exists e. unfold Fetcher.get_census_trade_data, Fetcher.try_body.
    rewrite Hexp, Himp. cbn [bind]. now rewrite He.
Qed.

Lemma header_driven_parse_witness :
  exists df,
    Fetcher.make_frame
      (Table [[Some "CTY_NAME"; Some "ALL_VAL_YR"; Some "CTY_CODE"];
              [Some "CHINA"; Some "100"; Some "5700"];
              [Some "FRANCE"; Some "7"; Some "4279"]]) = Ok df /\
    Fetcher.column df "CTY_CODE" = Ok [Some "5700"; Some "4279"].
Proof.
  destruct (header_driven_parse
              [Some "CTY_NAME"; Some "ALL_VAL_YR"; Some "CTY_CODE"]
              [[Some "CHINA"; Some "100"; Some "5700"];
               [Some "FRANCE"; Some "7"; Some "4279"]])
    as (df & Hdf & _ & Hcol & _).
  - discriminate.
  - repeat constructor.
  - exists df. split; [exact Hdf|].
    apply (Hcol "CTY_CODE" 2%nat); reflexivity.
Defined.

(** C4, as stated, fails for the country name of the imports table: the
    request asks for it, the fetcher never reads it, and a reply without it
    is processed without any error. *)
Lemma imports_name_column_not_required :
  ~ In (Some "CTY_NAME") [Some "GEN_VAL_YR"; Some "CTY_CODE"] /\
  Fetcher.get_census_trade_data Sample.str_to_float
    (Sample.serve
       (Table [Sample.header_exp;
               Sample.cells ["5700"; "CHINA"; "100000000000"; "2024"]])
       (Table [[Some "GEN_VAL_YR"; Some "CTY_CODE"];
               Sample.cells ["400000000000"; "5700"]]))
    2025
  = Fetcher.mk_fetched []
      (Trade [mk_trade (OStr "5700") (OStr "CHINA") 100 400 (-300) (OStr "China")]).
Proof.
  split.
  - cbn. intuition discriminate.
  - vm_compute. reflexivity.
Qed.

Section FailureFacts.
Import Fetcher App.
Variable str_to_float : string -> option float.

(** Whatever frame the call returns, the script ends on a page. *)
Lemma render_page (f : trade_frame) :
  render f = Unavailable /\ df_empty f = true \/
  exists merged_df, render f = Dashboard merged_df /\ df_empty f = false.
Proof.
  destruct f as [|[|r rows]]; cbn; eauto.
Qed.

Lemma try_body_raise_exports (net : network) (current_year : Z) (e : exn) :
  fetch_frame net (params_exp (current_year - 1)) = Raise e ->
  try_body str_to_float net current_year = Raise e.
Proof. unfold try_body. now intros ->. Qed.

Lemma try_body_raise_imports (net : network) (current_year : Z) (df : DataFrame) (e : exn) :
  fetch_frame net (params_exp (current_year - 1)) = Ok df ->
  fetch_frame net (params_imp (current_year - 1)) = Raise e ->
  try_body str_to_float net current_year = Raise e.
Proof. unfold try_body. now intros -> ->. Qed.

End FailureFacts.

(** C5: a request that cannot connect, a 4xx/5xx status, or a body that is
    not a table with a header row makes the request fail, and a failing
    request makes the fetch fail.  When the fetch fails (and no cached value
    is served), the call reports the error and returns the blank frame, the
    script shows the unavailable page without running the left merge, and no
    run of the script ends on an uncaught exception. *)
Theorem fetch_failure_short_circuits
        (str_to_float : string -> option float) (net : network)
        (now : App.clock) (c : App.cache) :
  (forall q, net q = Unreachable -> Fetcher.fetch_frame net q = Raise ConnectionError) /\
  (forall q status b,
      net q = Reply status b -> (400 <= status < 600)%Z ->
      Fetcher.fetch_frame net q = Raise (HTTPError status)) /\
  (forall q status b,
      net q = Reply status b -> ~ (400 <= status < 600)%Z ->
      b = NotJSON \/ b = NonArray \/ b = Table [] ->
      exists e, Fetcher.fetch_frame net q = Raise e) /\
  (forall e,
      Fetcher.fetch_frame net (Fetcher.params_exp (App.year now - 1)) = Raise e \/
      (exists df, Fetcher.fetch_frame net (Fetcher.params_exp (App.year now - 1)) = Ok df) /\
      Fetcher.fetch_frame net (Fetcher.params_imp (App.year now - 1)) = Raise e ->
      Fetcher.try_body str_to_float net (App.year now) = Raise e) /\
  (forall e,
      App.fresh c now = None ->
      Fetcher.try_body str_to_float net (App.year now) = Raise e ->
      Fetcher.get_census_trade_data str_to_float net (App.year now)
      = Fetcher.mk_fetched [e] Blank /\
      App.df_empty Blank = true /\
      App.main str_to_float net now c
      = App.mk_run [e] App.Unavailable
                   (Fetcher.requests_issued net (App.year now))
                   (Some (App.mk_entry (App.timer now) (Fetcher.mk_fetched [e] Blank)))) /\
  (forall e, App.page (App.main str_to_float net now c) <> App.Uncaught e).
Proof.
  split; [|split; [|split; [|split; [|split]]]].
  - intros q Hq. unfold Fetcher.fetch_frame. now rewrite Hq.
  - intros q status b Hq Hst. unfold Fetcher.fetch_frame. rewrite Hq.
    cbn [Fetcher.raise_for_status].
    replace ((400 <=? status)%Z && (status <? 600)%Z)%bool with true; [reflexivity|].
    symmetry. apply andb_true_iff. split; [apply Z.leb_le|apply Z.ltb_lt]; lia.
  - intros q status b Hq Hst Hb. unfold Fetcher.fetch_frame. rewrite Hq.
    cbn [Fetcher.raise_for_status].
    replace ((400 <=? status)%Z && (status <? 600)%Z)%bool with false.
    + destruct Hb as [->|[->| ->]]; cbn; eauto.
    + symmetry. apply andb_false_iff.
      destruct (Z.leb_spec 400 status); [right; apply Z.ltb_ge; lia|now left].
  - intros e [He|[(df & Hdf) He]].
    + now apply try_body_raise_exports.
    + now apply (try_body_raise_imports _ _ _ df).
  - intros e Hmiss Hraise.
    unfold App.main, App.cached_get_census_trade_data, Fetcher.get_census_trade_data.
    rewrite Hmiss, Hraise. repeat split.
  - intros e. unfold App.main.
    destruct (App.cached_get_census_trade_data str_to_float net now c) as [[v reqs] c'].
    cbn [App.page].
    destruct (render_page (Fetcher.frame v)) as [[-> _]|(m & -> & _)]; discriminate.
Qed.

Lemma fetch_failure_short_circuits_witness :
  App.main Sample.str_to_float (fun _ => Unreachable) (App.mk_clock 0 2025) None
  = App.mk_run [ConnectionError] App.Unavailable
               [Fetcher.params_exp 2024]
               (Some (App.mk_entry 0 (Fetcher.mk_fetched [ConnectionError] Blank))).
Proof.
  destruct (fetch_failure_short_circuits
              Sample.str_to_float (fun _ => Unreachable) (App.mk_clock 0 2025) None)
    as (_ & _ & _ & _ & Hfail & _).
  destruct (Hfail ConnectionError) as (_ & _ & Hmain);
    [reflexivity|reflexivity|exact Hmain].
Defined.

(** C9: the decorated function has one cache entry, not one per year.  A call
    that computes its value issues its requests and stores the value; a later
    call whose timer is less than 3600 seconds past the stored one returns
    that value and issues no request; a call at 3600 seconds or more issues
    fresh requests for its own year and stores the new value. *)
Theorem cache_ttl_single_entry
        (str_to_float : string -> option float) (net1 net2 : network)
        (now1 now2 : App.clock) (c : App.cache) :
  App.fresh c now1 = None ->
  exists v1 c1,
    App.cached_get_census_trade_data str_to_float net1 now1 c
    = (v1, Fetcher.requests_issued net1 (App.year now1), c1) /\
    Fetcher.requests_issued net1 (App.year now1) <> [] /\
    ((App.timer now2 < App.timer now1 + 3600)%Z ->
     App.cached_get_census_trade_data str_to_float net2 now2 c1 = (v1, [], c1)) /\
    ((App.timer now1 + 3600 <= App.timer now2)%Z ->
     App.cached_get_census_trade_data str_to_float net2 now2 c1
     = (Fetcher.get_census_trade_data str_to_float net2 (App.year now2),
        Fetcher.requests_issued net2 (App.year now2),
        Some (App.mk_entry (App.timer now2)
                (Fetcher.get_census_trade_data str_to_float net2 (App.year now2))))).
Proof.
  intros Hmiss.
  unfold App.cached_get_census_trade_data at 1. rewrite Hmiss.
  eexists. eexists. split; [reflexivity|].
  split; [discriminate|]. split.
  - intros Hlt. unfold App.cached_get_census_trade_data, App.fresh, App.ttl.
    cbn [App.stored_at App.cached_value].
    now rewrite (proj2 (Z.ltb_lt _ _) Hlt).
  - intros Hge. unfold App.cached_get_census_trade_data, App.fresh, App.ttl.
    cbn [App.stored_at App.cached_value].
    now rewrite (proj2 (Z.ltb_ge _ _) Hge).
Qed.

Lemma cache_ttl_single_entry_witness :
  exists v1 c1,
    App.cached_get_census_trade_data Sample.str_to_float Sample.yearly
      (App.mk_clock 100 2025) None
    = (v1, Fetcher.requests_issued Sample.yearly 2025, c1) /\
    App.cached_get_census_trade_data Sample.str_to_float Sample.yearly
      (App.mk_clock 3699 2025) c1 = (v1, [], c1).
Proof.
  destruct (cache_ttl_single_entry
              Sample.str_to_float Sample.yearly Sample.yearly
              (App.mk_clock 100 2025) (App.mk_clock 3699 2025) None eq_refl)
    as (v1 & c1 & Hfirst & _ & Hhit & _).
  exists v1, c1. split; [exact Hfirst|].
  apply Hhit. cbn. lia.
Defined.

(** C9, as stated, fails on the key: a call made in 2026, ten seconds after
    a call made in 2025, asks for another year, yet it issues no request and
    returns the figures fetched for 2024. *)
Lemma cache_not_keyed_by_year :
  exists v1 s1 c1 r1 r2,
    App.year (App.mk_clock 0 2025) <> App.year (App.mk_clock 10 2026) /\
    App.cached_get_census_trade_data Sample.str_to_float Sample.yearly
      (App.mk_clock 0 2025) None = (v1, s1, c1) /\
    App.cached_get_census_trade_data Sample.str_to_float Sample.yearly
      (App.mk_clock 10 2026) c1 = (v1, [], c1) /\
    Fetcher.frame v1 = Trade [r1] /\ Exports r1 = 1%float /\
    Fetcher.frame (Fetcher.get_census_trade_data Sample.str_to_float Sample.yearly 2026)
    = Trade [r2] /\ Exports r2 = 2%float.
Proof.
  do 5 eexists.
  split; [discriminate|].
  split; [vm_compute; reflexivity|].
  split; [vm_compute; reflexivity|].
  split; [reflexivity|]. split; [reflexivity|].
  split; [vm_compute; reflexivity|]. reflexivity.
Qed.

(** The blank frame of the [except] branch has no [Country Name] column:
    the left merge would raise on it, which is why the script tests
    [df_trade.empty] first. *)
Remark join_blank_raises (t : list tariff_entry) :
  Joiner.join t Blank = Raise (KeyError "Country Name").
Proof. reflexivity. Qed.

(** C10: [get_tariff_data] is a constant table of 13 rows; the country names are
    pairwise distinct, every rate is at least 0, every category is one of
    FTA Partner, Normal Trade, Trade War, Sanctioned, and every ISO code is
    three upper-case letters. *)
Theorem get_tariff_data_table :
  List.length Tariff.get_tariff_data = 13%nat /\
  NoDup (map t_country_name Tariff.get_tariff_data) /\
  Forall (fun e => (0 <=? t_tariff_rate e)%float = true) Tariff.get_tariff_data /\
  Forall (fun e => In (t_category e) Tariff.allowed_categories) Tariff.get_tariff_data /\
  Forall (fun e => Tariff.three_upper_letters (t_iso_alpha_3 e) = true)
         Tariff.get_tariff_data.
Proof.
  split; [reflexivity|].
  split.
  { assert (H : forall l, Tariff.distinct l = true -> NoDup l).
    { induction l as [|s l IH]; cbn; intro Hd; constructor.
      - apply andb_prop in Hd as [Hn _]. intro Hin.
        apply negb_true_iff in Hn.
        assert (Tariff.mem_string s l = true) as Hm.
        { apply existsb_exists. exists s. split; [assumption|apply String.eqb_refl]. }
        congruence.
      - apply IH. now apply andb_prop in Hd as [_ Hd]. }
    apply H. reflexivity. }
  split; [repeat constructor|].
  split.
  - repeat (constructor; [cbn; tauto|]). constructor.
  - repeat constructor.
Qed.

(** * Further properties of the pipeline *)

(** ** The outer merge (lines 72-78) *)

Section OuterMergeFacts.
Import Fetcher.

Lemma in_filter_exp (L : list exp_row) (l : exp_row) :
  In l L -> In l (filter (fun x => key_eqb (e_code x) (e_code l)) L).
Proof. intros Hl. apply filter_In. split; [assumption|]. now apply key_eqb_eq. Qed.

Lemma in_filter_imp (R : list imp_row) (r : imp_row) :
  In r R -> In r (filter (fun x => key_eqb (i_code x) (i_code r)) R).
Proof. intros Hr. apply filter_In. split; [assumption|]. now apply key_eqb_eq. Qed.

(** An exports record is in the block of its code, with its name and value. *)
Lemma merge_key_has_exp (L : list exp_row) (R : list imp_row) (l : exp_row) :
  In l L ->
  exists m, In m (merge_key L R (e_code l)) /\
            m_code m = e_code l /\ m_name m = e_name l /\ m_exports m = e_exports l.
Proof.
  intros Hl. apply in_filter_exp in Hl. unfold merge_key.
  destruct (filter (fun x => key_eqb (e_code x) (e_code l)) L) as [|l0 ls] eqn:HL;
    [contradiction|].
  destruct (filter (fun r => key_eqb (i_code r) (e_code l)) R) as [|r0 rs].
  - eexists. split; [apply in_map; exact Hl|]. cbn. auto.
  - eexists. split.
    + apply in_flat_map. exists l. split; [exact Hl|]. left. reflexivity.
    + cbn. auto.
Qed.

(** An imports record is in the block of its code, with its value. *)
Lemma merge_key_has_imp (L : list exp_row) (R : list imp_row) (r : imp_row) :
  In r R ->
  exists m, In m (merge_key L R (i_code r)) /\
            m_code m = i_code r /\ m_imports m = i_imports r.
Proof.
  intros Hr. apply in_filter_imp in Hr. unfold merge_key.
  destruct (filter (fun x => key_eqb (i_code x) (i_code r)) R) as [|r0 rs] eqn:HR;
    [contradiction|].
  destruct (filter (fun l => key_eqb (e_code l) (i_code r)) L) as [|l0 ls].
  - eexists. split; [apply in_map; exact Hr|]. cbn. auto.
  - eexists. split.
    + apply in_flat_map. exists l0. split; [left; reflexivity|].
      apply in_map. exact Hr.
    + cbn. auto.
Qed.

End OuterMergeFacts.

(** X1: the outer merge loses no record and invents no code.  Every exports
    record is found in the returned rows with its code, its name and its
    value (missing ones filled), every imports record with its code and its
    value, and the code of every returned row is a code of one of the two
    tables. *)
Theorem outer_merge_keeps_every_record
        (L : list exp_row) (R : list imp_row) (rows : list trade_row) :
  Fetcher.reconcile L R = Ok rows ->
  (forall l, In l L ->
     exists row, In row rows /\
                 CTY_CODE row = Fetcher.fillna_obj (e_code l) /\
                 CTY_NAME row = Fetcher.fillna_obj (e_name l) /\
                 Exports row = Fetcher.fillna_float (e_exports l)) /\
  (forall r, In r R ->
     exists row, In row rows /\
                 CTY_CODE row = Fetcher.fillna_obj (i_code r) /\
                 Imports row = Fetcher.fillna_float (i_imports r)) /\
  (forall row, In row rows ->
     exists k, CTY_CODE row = Fetcher.fillna_obj k /\
               (In k (map e_code L) \/ In k (map i_code R))).
Proof.
  intros Hrec. apply reconcile_rows in Hrec. subst rows.
  split; [|split].
  - intros l Hl.
    destruct (merge_key_has_exp L R l Hl) as (m & Hm & Hc & Hn & Hx).
    exists (Fetcher.finish_row m). split.
    + apply in_map. apply in_merge_outer. exists (e_code l).
      split; [left; now apply in_map|exact Hm].
    + cbn. now rewrite Hc, Hn, Hx.
  - intros r Hr.
    destruct (merge_key_has_imp L R r Hr) as (m & Hm & Hc & Hi).
    exists (Fetcher.finish_row m). split.
    + apply in_map. apply in_merge_outer. exists (i_code r).
      split; [right; now apply in_map|exact Hm].
    + cbn. now rewrite Hc, Hi.
  - intros row Hrow. apply in_map_iff in Hrow as (m & <- & Hm).
    apply in_merge_outer in Hm as (k & Hk & Hm).
    apply in_merge_key in Hm as [Hc _].
    exists k. cbn. now rewrite Hc.
Qed.

Lemma outer_merge_keeps_every_record_witness :
  exists row,
    In row [mk_trade (OStr "4280") (OInt 0) 0 3 (-3) ONaN;
            mk_trade (OStr "5700") (OStr "CHINA") 100 400 (-300) (OStr "China")] /\
    CTY_CODE row = OStr "4280" /\ Imports row = 3%float.
Proof.
  destruct (outer_merge_keeps_every_record
              [mk_exp (Some "5700") (Some "CHINA") 100]
              [mk_imp (Some "5700") 400; mk_imp (Some "4280") 3]
              [mk_trade (OStr "4280") (OInt 0) 0 3 (-3) ONaN;
               mk_trade (OStr "5700") (OStr "CHINA") 100 400 (-300) (OStr "China")]
              ltac:(vm_compute; reflexivity))
    as (_ & Himp & _).
  apply (Himp (mk_imp (Some "4280") 3)). right. left. reflexivity.
Defined.

(** X2: a country code that both tables list gives rows that pair an exports
    record and an imports record of that code: exports, name and imports
    come from them, and the balance is their difference. *)
Theorem outer_merge_pairs_both_sides
        (L : list exp_row) (R : list imp_row) (rows : list trade_row)
        (c : string) (row : trade_row) :
  Fetcher.reconcile L R = Ok rows ->
  In (Some c) (map e_code L) ->
  In (Some c) (map i_code R) ->
  In row rows ->
  CTY_CODE row = OStr c ->
  exists l r,
    In l L /\ e_code l = Some c /\ In r R /\ i_code r = Some c /\
    CTY_NAME row = Fetcher.fillna_obj (e_name l) /\
    Exports row = Fetcher.fillna_float (e_exports l) /\
    Imports row = Fetcher.fillna_float (i_imports r) /\
    Balance row = (Fetcher.fillna_float (e_exports l)
                   - Fetcher.fillna_float (i_imports r))%float.
Proof.
  intros Hrec HL HR Hrow Hc.
  apply reconcile_rows in Hrec. subst rows.
  destruct (trade_row_origin _ _ _ _ Hrow Hc) as (m & -> & Hm).
  apply in_merge_key in Hm
    as (_ & [(Hno & _)|[(Hno & _)|(l & r & Hl & Hkl & Hr & Hkr & Hn & Hx & Hi)]]);
    try contradiction.
  exists l, r. cbn. rewrite Hn, Hx, Hi. auto 10.
Qed.

Lemma outer_merge_pairs_both_sides_witness :
  exists l r,
    In l [mk_exp (Some "5700") (Some "CHINA") 100] /\ e_code l = Some "5700" /\
    In r [mk_imp (Some "5700") 400; mk_imp (Some "4280") 3] /\ i_code r = Some "5700" /\
    OStr "CHINA" = Fetcher.fillna_obj (e_name l) /\
    100%float = Fetcher.fillna_float (e_exports l) /\
    400%float = Fetcher.fillna_float (i_imports r) /\
    (-300)%float = (Fetcher.fillna_float (e_exports l)
                    - Fetcher.fillna_float (i_imports r))%float.
Proof.
  apply (outer_merge_pairs_both_sides
           [mk_exp (Some "5700") (Some "CHINA") 100]
           [mk_imp (Some "5700") 400; mk_imp (Some "4280") 3]
           [mk_trade (OStr "4280") (OInt 0) 0 3 (-3) ONaN;
            mk_trade (OStr "5700") (OStr "CHINA") 100 400 (-300) (OStr "China")]
           "5700"
           (mk_trade (OStr "5700") (OStr "CHINA") 100 400 (-300) (OStr "China"))).
  - vm_compute. reflexivity.
  - left. reflexivity.
  - left. reflexivity.
  - right. left. reflexivity.
  - reflexivity.
Defined.

Section NameColumnFacts.
Import Fetcher.

Lemma merge_outer_empty : merge_outer [] [] = [].
Proof. reflexivity. Qed.

Lemma merged_name_origin (L : list exp_row) (R : list imp_row) (m : merged_row) :
  In m (merge_outer L R) ->
  m_name m = None \/ exists l, In l L /\ m_name m = e_name l.
Proof.
  intros Hm. apply in_merge_outer in Hm as (k & _ & Hm).
  apply in_merge_key in Hm
    as (_ & [(_ & Hn & _)|[(_ & _ & l & Hl & _ & Hn & _)
                          |(l & r & Hl & _ & _ & _ & Hn & _)]]); eauto.
Qed.

Lemma str_accessor_raises (col : list obj) :
  col <> [] -> existsb is_str col = false -> str_accessor col = Raise AttributeError.
Proof.
  intros Hne Hex. destruct col as [|o col]; [congruence|].
  unfold str_accessor. now rewrite Hex.
Qed.

Lemma str_accessor_ok (col : list obj) :
  existsb is_str col = true -> str_accessor col = Ok tt.
Proof.
  intros Hex. destruct col as [|o col]; [reflexivity|].
  unfold str_accessor. now rewrite Hex.
Qed.

End NameColumnFacts.

(** X3: the reconciliation fails, with the error of [.str], exactly when
    the merged table has rows and no exports record has a name: in
    particular when the exports table is empty and the imports table is not.
    In every other case it returns the merged rows. *)
Theorem reconcile_fails_without_any_name (L : list exp_row) (R : list imp_row) :
  (Fetcher.reconcile L R = Raise AttributeError <->
   (forall l, In l L -> e_name l = None) /\ (L <> [] \/ R <> [])) /\
  (Fetcher.reconcile L R <> Raise AttributeError ->
   Fetcher.reconcile L R = Ok (map Fetcher.finish_row (Fetcher.merge_outer L R))).
Proof.
  assert (Hfwd : (forall l, In l L -> e_name l = None) -> L <> [] \/ R <> [] ->
                 Fetcher.reconcile L R = Raise AttributeError).
  { intros Hnone Hne. unfold Fetcher.reconcile.
    rewrite str_accessor_raises; [reflexivity| |].
    - destruct Hne as [Hne|Hne].
      + destruct L as [|l L']; [congruence|].
        destruct (merge_key_has_exp (l :: L') R l (or_introl eq_refl)) as (m & Hm & _).
        intro Hnil. apply map_eq_nil in Hnil.
        assert (Hin : In m (Fetcher.merge_outer (l :: L') R)).
        { apply in_merge_outer. exists (e_code l). split; [left; now left|exact Hm]. }
        rewrite Hnil in Hin. exact Hin.
      + destruct R as [|r R']; [congruence|].
        destruct (merge_key_has_imp L (r :: R') r (or_introl eq_refl)) as (m & Hm & _).
        intro Hnil. apply map_eq_nil in Hnil.
        assert (Hin : In m (Fetcher.merge_outer L (r :: R'))).
        { apply in_merge_outer. exists (i_code r). split; [right; now left|exact Hm]. }
        rewrite Hnil in Hin. exact Hin.
    - destruct (existsb Fetcher.is_str
                  (map (fun m => Fetcher.fillna_obj (m_name m)) (Fetcher.merge_outer L R)))
        eqn:Hex; [|reflexivity].
      apply existsb_exists in Hex as (o & Ho & Hstr).
      apply in_map_iff in Ho as (m & <- & Hm).
      destruct (merged_name_origin _ _ _ Hm) as [Hn|(l & Hl & Hn)].
      + rewrite Hn in Hstr. discriminate.
      + rewrite Hn, (Hnone l Hl) in Hstr. discriminate. }
  assert (Hok : (exists l, In l L /\ e_name l <> None) \/ (L = [] /\ R = []) ->
                Fetcher.reconcile L R
                = Ok (map Fetcher.finish_row (Fetcher.merge_outer L R))).
  { intros [(l & Hl & Hn)|[-> ->]]; [|reflexivity].
    unfold Fetcher.reconcile. rewrite str_accessor_ok; [reflexivity|].
    apply existsb_exists.
    destruct (merge_key_has_exp L R l Hl) as (m & Hm & _ & Hname & _).
    exists (Fetcher.fillna_obj (m_name m)). split.
    - apply in_map_iff. exists m. split; [reflexivity|].
      apply in_merge_outer. exists (e_code l). split; [left; now apply in_map|exact Hm].
    - rewrite Hname. destruct (e_name l); [reflexivity|congruence]. }
  assert (Hdec : (exists l, In l L /\ e_name l <> None) \/
                 (forall l, In l L -> e_name l = None)).
  { clear. induction L as [|l L IH]; [right; intros l []|].
    destruct (e_name l) as [s|] eqn:Hn.
    - left. exists l. split; [now left|congruence].
    - destruct IH as [(l' & Hl' & Hn')|IH].
      + left. exists l'. split; [now right|assumption].
      + right. intros l' [<-|Hl']; auto. }
  split; [split|].
  - intros Hraise. destruct Hdec as [Hsome|Hnone].
    + rewrite Hok in Hraise by (now left). discriminate.
    + split; [exact Hnone|].
      destruct L as [|l L']; [|left; discriminate].
      destruct R as [|r R']; [|right; discriminate].
      rewrite Hok in Hraise by (now right). discriminate.
  - intros [Hnone Hne]. now apply Hfwd.
  - intros Hnot. destruct Hdec as [Hsome|Hnone]; [apply Hok; now left|].
    destruct L as [|l L'].
    + destruct R as [|r R']; [apply Hok; now right|].
      exfalso. apply Hnot. apply Hfwd; [exact Hnone|right; discriminate].
    + exfalso. apply Hnot. apply Hfwd; [exact Hnone|left; discriminate].
Qed.

Lemma reconcile_fails_without_any_name_witness :
  Fetcher.reconcile [] [mk_imp (Some "4280") 3] = Raise AttributeError.
Proof.
  apply (proj1 (reconcile_fails_without_any_name [] [mk_imp (Some "4280") 3])).
  split; [intros l []|right; discriminate].
Defined.

(** ** The order of the merged rows *)

Section KeyOrderFacts.
Import Fetcher.

Lemma string_compare_refl (s : string) : String.compare s s = Eq.
Proof.
  induction s as [|c s IH]; [reflexivity|].
  cbn. unfold Ascii.compare. now rewrite N.compare_refl.
Qed.

Lemma string_leb_refl (s : string) : String.leb s s = true.
Proof. unfold String.leb. now rewrite string_compare_refl. Qed.

Lemma string_leb_trans (a : string) :
  forall b c, String.leb a b = true -> String.leb b c = true -> String.leb a c = true.
Proof.
  unfold String.leb.
  induction a as [|x a IH]; intros [|y b] [|z c]; cbn; try congruence.
  unfold Ascii.compare.
  destruct (N.compare_spec (N_of_ascii x) (N_of_ascii y)) as [Hxy|Hxy|Hxy];
    destruct (N.compare_spec (N_of_ascii y) (N_of_ascii z)) as [Hyz|Hyz|Hyz];
    destruct (N.compare_spec (N_of_ascii x) (N_of_ascii z)) as [Hxz|Hxz|Hxz];
    try congruence; try (exfalso; lia).
  apply IH.
Qed.

Lemma key_leb_refl (a : option string) : key_leb a a = true.
Proof. destruct a; cbn; [apply string_leb_refl|reflexivity]. Qed.

Lemma key_leb_trans (a b c : option string) :
  key_leb a b = true -> key_leb b c = true -> key_leb a c = true.
Proof.
  destruct a, b, c; cbn; try congruence. apply string_leb_trans.
Qed.

Lemma key_leb_antisym (a b : option string) :
  key_leb a b = true -> key_leb b a = true -> a = b.
Proof.
  destruct a, b; cbn; try congruence.
  intros H1 H2. f_equal. now apply String.leb_antisym.
Qed.

Lemma key_leb_total (a b : option string) :
  key_leb a b = true \/ key_leb b a = true.
Proof. destruct a, b; cbn; auto. apply String.leb_total. Qed.

Lemma key_lt_trans (a b c : option string) : key_lt a b -> key_lt b c -> key_lt a c.
Proof.
  intros [Hab Hne] [Hbc Hne']. split; [eapply key_leb_trans; eassumption|].
  intros ->. apply Hne. now apply key_leb_antisym.
Qed.

Lemma insert_key_sorted (k : option string) (l : list (option string)) :
  StronglySorted key_lt l -> StronglySorted key_lt (insert_key k l).
Proof.
  induction 1 as [|k' l Hs IH Hall]; cbn; [repeat constructor|].
  destruct (key_eqb k k') eqn:Heq; [now constructor|].
  assert (Hne : k <> k') by (intro Hk; apply key_eqb_eq in Hk; congruence).
  destruct (key_leb k k') eqn:Hle.
  - constructor; [now constructor|]. constructor; [now split|].
    eapply Forall_impl; [|exact Hall]. intros x Hx.
    apply (key_lt_trans k k' x); [now split|exact Hx].
  - constructor; [exact IH|].
    apply Forall_forall. intros x Hx. apply in_insert_key in Hx as [->|Hx].
    + split; [|congruence].
      destruct (key_leb_total k k') as [H|H]; [congruence|exact H].
    + rewrite Forall_forall in Hall. now apply Hall.
Qed.

Lemma sorted_keys_sorted (ks : list (option string)) :
  StronglySorted key_lt (sorted_keys ks).
Proof.
  unfold sorted_keys. induction ks as [|k ks IH]; cbn; [constructor|].
  now apply insert_key_sorted.
Qed.

Lemma sorted_keys_nodup (ks : list (option string)) : NoDup (sorted_keys ks).
Proof.
  generalize (sorted_keys_sorted ks). generalize (sorted_keys ks) as l.
  induction 1 as [|k l Hs IH Hall]; constructor; [|exact IH].
  intro Hin. rewrite Forall_forall in Hall. now destruct (Hall k Hin) as [_ Hne].
Qed.

Lemma strongly_sorted_app {A} (R : A -> A -> Prop) (l1 l2 : list A) :
  StronglySorted R l1 -> StronglySorted R l2 ->
  (forall x y, In x l1 -> In y l2 -> R x y) ->
  StronglySorted R (l1 ++ l2).
Proof.
  induction 1 as [|a l1 Hs IH Hall]; intros H2 Hcross; [exact H2|].
  cbn. constructor.
  - apply IH; [exact H2|]. intros x y Hx Hy. apply Hcross; [now right|exact Hy].
  - apply Forall_app. split; [exact Hall|].
    apply Forall_forall. intros y Hy. apply Hcross; [now left|exact Hy].
Qed.

Lemma strongly_sorted_constant (k : option string) (l : list (option string)) :
  (forall x, In x l -> x = k) ->
  StronglySorted (fun a b => key_leb a b = true) l.
Proof.
  induction l as [|a l IH]; intros Hall; constructor.
  - apply IH. intros x Hx. apply Hall. now right.
  - apply Forall_forall. intros x Hx.
    rewrite (Hall a (or_introl eq_refl)), (Hall x (or_intror Hx)).
    apply key_leb_refl.
Qed.

Lemma merge_key_codes (L : list exp_row) (R : list imp_row) (k x : option string) :
  In x (map m_code (merge_key L R k)) -> x = k.
Proof.
  intros Hx. apply in_map_iff in Hx as (m & <- & Hm).
  now apply in_merge_key in Hm as [Hc _].
Qed.

Lemma blocks_sorted (L : list exp_row) (R : list imp_row) (ks : list (option string)) :
  StronglySorted key_lt ks ->
  StronglySorted (fun a b => key_leb a b = true)
                 (map m_code (flat_map (merge_key L R) ks)).
Proof.
  induction 1 as [|k ks Hs IH Hall]; [constructor|].
  cbn [flat_map]. rewrite map_app. apply strongly_sorted_app.
  - apply (strongly_sorted_constant k). apply merge_key_codes.
  - exact IH.
  - intros x y Hx Hy. apply merge_key_codes in Hx. subst x.
    apply in_map_iff in Hy as (m & <- & Hm).
    apply in_flat_map in Hm as (k' & Hk' & Hm).
    apply in_merge_key in Hm as [-> _].
    rewrite Forall_forall in Hall. now destruct (Hall k' Hk').
Qed.

(** With distinct codes a table has at most one record per code. *)
Lemma filter_exp_unique (L : list exp_row) (k : option string) :
  NoDup (map e_code L) ->
  (List.length (filter (fun l => key_eqb (e_code l) k) L) <= 1)%nat.
Proof.
  induction L as [|l L IH]; cbn; [lia|]. intros Hnd.
  inversion Hnd as [|? ? Hnotin Hnd']; subst.
  destruct (key_eqb (e_code l) k) eqn:Heq; [|now apply IH].
  apply key_eqb_eq in Heq. subst k.
  destruct (filter (fun l0 => key_eqb (e_code l0) (e_code l)) L) as [|l' ls] eqn:Hf;
    [cbn; lia|].
  exfalso. apply Hnotin.
  assert (Hin : In l' (filter (fun l0 => key_eqb (e_code l0) (e_code l)) L))
    by (rewrite Hf; now left).
  apply filter_In in Hin as [Hin Hk]. apply key_eqb_eq in Hk.
  rewrite <- Hk. now apply in_map.
Qed.

Lemma filter_imp_unique (R : list imp_row) (k : option string) :
  NoDup (map i_code R) ->
  (List.length (filter (fun r => key_eqb (i_code r) k) R) <= 1)%nat.
Proof.
  induction R as [|r R IH]; cbn; [lia|]. intros Hnd.
  inversion Hnd as [|? ? Hnotin Hnd']; subst.
  destruct (key_eqb (i_code r) k) eqn:Heq; [|now apply IH].
  apply key_eqb_eq in Heq. subst k.
  destruct (filter (fun r0 => key_eqb (i_code r0) (i_code r)) R) as [|r' rs] eqn:Hf;
    [cbn; lia|].
  exfalso. apply Hnotin.
  assert (Hin : In r' (filter (fun r0 => key_eqb (i_code r0) (i_code r)) R))
    by (rewrite Hf; now left).
  apply filter_In in Hin as [Hin Hk]. apply key_eqb_eq in Hk.
  rewrite <- Hk. now apply in_map.
Qed.

Lemma merge_key_single (L : list exp_row) (R : list imp_row) (k : option string) :
  NoDup (map e_code L) -> NoDup (map i_code R) ->
  In k (map e_code L) \/ In k (map i_code R) ->
  map m_code (merge_key L R k) = [k].
Proof.
  intros HL HR Hk.
  pose proof (filter_exp_unique L k HL) as HlenL.
  pose proof (filter_imp_unique R k HR) as HlenR.
  unfold merge_key.
  destruct (filter (fun l => key_eqb (e_code l) k) L) as [|l [|l' ls]] eqn:HfL;
    destruct (filter (fun r => key_eqb (i_code r) k) R) as [|r [|r' rs]] eqn:HfR;
    cbn in HlenL, HlenR; try lia; try reflexivity.
  exfalso. destruct Hk as [Hk|Hk].
  - now apply filter_exp_nonempty in Hk.
  - now apply filter_imp_nonempty in Hk.
Qed.

Lemma blocks_single (L : list exp_row) (R : list imp_row) (ks : list (option string)) :
  NoDup (map e_code L) -> NoDup (map i_code R) ->
  (forall k, In k ks -> In k (map e_code L) \/ In k (map i_code R)) ->
  map m_code (flat_map (merge_key L R) ks) = ks.
Proof.
  intros HL HR. induction ks as [|k ks IH]; intros Hks; [reflexivity|].
  cbn [flat_map]. rewrite map_app, IH by (intros k' Hk'; apply Hks; now right).
  now rewrite (merge_key_single L R k HL HR (Hks k (or_introl eq_refl))).
Qed.

Lemma fillna_obj_injective (a b : option string) :
  fillna_obj a = fillna_obj b -> a = b.
Proof. destruct a, b; cbn; congruence. Qed.

Lemma nodup_map_injective {A B} (f : A -> B) (l : list A) :
  (forall a b, f a = f b -> a = b) -> NoDup l -> NoDup (map f l).
Proof.
  intros Hinj. induction 1 as [|a l Hnotin Hnd IH]; cbn; constructor; [|exact IH].
  intro Hin. apply in_map_iff in Hin as (b & Hb & Hin).
  apply Hinj in Hb. now subst b.
Qed.

End KeyOrderFacts.

(** X4: the rows of the outer merge come in the lexicographic order of
    their country codes, rows without a code last. *)
Theorem outer_merge_rows_sorted_by_code (L : list exp_row) (R : list imp_row) :
  StronglySorted (fun a b => Fetcher.key_leb a b = true)
                 (map m_code (Fetcher.merge_outer L R)).
Proof.
  unfold Fetcher.merge_outer. apply blocks_sorted. apply sorted_keys_sorted.
Qed.

(** X5: when no code occurs twice in the exports table and none twice in the
    imports table, no code occurs twice in the returned rows: together with
    X1, a country listed by either table has exactly one row. *)
Theorem outer_merge_one_row_per_code
        (L : list exp_row) (R : list imp_row) (rows : list trade_row) :
  Fetcher.reconcile L R = Ok rows ->
  NoDup (map e_code L) ->
  NoDup (map i_code R) ->
  NoDup (map CTY_CODE rows) /\
  List.length rows
  = List.length (Fetcher.sorted_keys (map e_code L ++ map i_code R)).
Proof.
  intros Hrec HL HR. apply reconcile_rows in Hrec. subst rows.
  assert (Hcodes : map m_code (Fetcher.merge_outer L R)
                   = Fetcher.sorted_keys (map e_code L ++ map i_code R)).
  { unfold Fetcher.merge_outer. apply blocks_single; [exact HL|exact HR|].
    intros k Hk. apply (proj1 (in_sorted_keys _ _)) in Hk. now apply in_app_or in Hk. }
  split.
  - rewrite map_map.
    change (fun x => CTY_CODE (Fetcher.finish_row x))
      with (fun x => Fetcher.fillna_obj (m_code x)).
    rewrite <- (map_map m_code Fetcher.fillna_obj), Hcodes.
    apply nodup_map_injective; [apply fillna_obj_injective|apply sorted_keys_nodup].
  - rewrite length_map, <- Hcodes. now rewrite length_map.
Qed.

Lemma outer_merge_one_row_per_code_witness :
  NoDup (map CTY_CODE
           [mk_trade (OStr "4280") (OInt 0) 0 3 (-3) ONaN;
            mk_trade (OStr "5700") (OStr "CHINA") 100 400 (-300) (OStr "China")]).
Proof.
  apply (outer_merge_one_row_per_code
           [mk_exp (Some "5700") (Some "CHINA") 100]
           [mk_imp (Some "5700") 400; mk_imp (Some "4280") 3]).
  - vm_compute. reflexivity.
  - cbn. repeat constructor; cbn; tauto.
  - cbn. repeat constructor; cbn; intuition discriminate.
Defined.

(** ** What the fetcher returns (lines 53-101) *)

Section FetchedRowFacts.
Import Fetcher.
Variable str_to_float : string -> option float.

Lemma get_census_trade_data_rows (net : network) (current_year : Z)
      (rows : list trade_row) :
  frame (get_census_trade_data str_to_float net current_year) = Trade rows ->
  try_body str_to_float net current_year = Ok rows.
Proof.
  unfold get_census_trade_data.
  destruct (try_body str_to_float net current_year) as [rows'|e]; cbn; congruence.
Qed.

Lemma to_numeric_cell_raises (c : option string) (e : exn) :
  to_numeric_cell str_to_float c = Raise e -> e = ValueError.
Proof.
  destruct c as [s|]; cbn; [|discriminate].
  destruct (str_to_float s); congruence.
Qed.

Lemma to_numeric_unparsable (col : list (option string)) (s : string) :
  In (Some s) col -> str_to_float s = None ->
  to_numeric str_to_float col = Raise ValueError.
Proof.
  unfold to_numeric. induction col as [|c col IH]; intros Hin Hbad; [contradiction|].
  cbn [mapM].
  destruct (to_numeric_cell str_to_float c) as [x|e] eqn:Hc.
  - cbn [bind]. destruct Hin as [->|Hin].
    + cbn in Hc. rewrite Hbad in Hc. discriminate.
    + now rewrite (IH Hin Hbad).
  - cbn [bind]. now rewrite (to_numeric_cell_raises _ _ Hc).
Qed.

End FetchedRowFacts.

(** X6: in every row the fetcher returns, exports and imports are numbers
    (never NaN), the balance is exports minus imports, and the raw name is a
    string or the fill value 0, never missing. *)
Theorem fetched_rows_are_filled
        (str_to_float : string -> option float) (net : network) (current_year : Z)
        (rows : list trade_row) (row : trade_row) :
  Fetcher.frame (Fetcher.get_census_trade_data str_to_float net current_year)
  = Trade rows ->
  In row rows ->
  is_nan (Exports row) = false /\
  is_nan (Imports row) = false /\
  Balance row = (Exports row - Imports row)%float /\
  CTY_NAME row <> ONaN /\ CTY_CODE row <> ONaN.
Proof.
  intros Hframe Hrow. apply get_census_trade_data_rows in Hframe.
  apply try_body_rows in Hframe as (L & R & ->).
  apply in_map_iff in Hrow as (m & <- & _).
  destruct (finish_row_balance m) as (Hb & He & Hi).
  repeat split; try assumption; cbn.
  - destruct (m_name m); discriminate.
  - destruct (m_code m); discriminate.
Qed.

Lemma fetched_rows_are_filled_witness :
  is_nan 100%float = false /\ is_nan 400%float = false /\
  (-300 = 100 - 400)%float /\ OStr "CHINA" <> ONaN /\ OStr "5700" <> ONaN.
Proof.
  apply (fetched_rows_are_filled
           Sample.str_to_float
           (Sample.serve
              (Table [Sample.header_exp;
                      Sample.cells ["5700"; "CHINA"; "100000000000"; "2024"]])
              (Table [Sample.header_imp;
                      Sample.cells ["5700"; "CHINA"; "400000000000"; "2024"]]))
           2025
           [mk_trade (OStr "5700") (OStr "CHINA") 100 400 (-300) (OStr "China")]
           (mk_trade (OStr "5700") (OStr "CHINA") 100 400 (-300) (OStr "China"))).
  - vm_compute. reflexivity.
  - left. reflexivity.
Defined.

(** X8: one value that [pd.to_numeric] cannot read makes the whole fetch
    fail: when both frames are built and a cell of the exports value column
    (or, the exports values being readable, of the imports value column) is
    not a number, the call reports a ValueError and returns the blank
    frame. *)
Theorem unparsable_value_fails_fetch
        (str_to_float : string -> option float) (net : network) (current_year : Z)
        (df_exp df_imp : DataFrame) (col : list (option string)) (s : string) :
  Fetcher.fetch_frame net (Fetcher.params_exp (current_year - 1)) = Ok df_exp ->
  Fetcher.fetch_frame net (Fetcher.params_imp (current_year - 1)) = Ok df_imp ->
  In (Some s) col ->
  str_to_float s = None ->
  Fetcher.column df_exp "ALL_VAL_YR" = Ok col \/
  (exists xs, Fetcher.value_column str_to_float df_exp "ALL_VAL_YR" "Exports" = Ok xs) /\
  Fetcher.column df_imp "GEN_VAL_YR" = Ok col ->
  Fetcher.get_census_trade_data str_to_float net current_year
  = Fetcher.mk_fetched [ValueError] Blank.
Proof.
  intros Hexp Himp Hin Hbad Hcol.
  unfold Fetcher.get_census_trade_data, Fetcher.try_body, Fetcher.process.
  rewrite Hexp, Himp. cbn [bind].
  destruct Hcol as [Hcol|[(xs & Hxs) Hcol]].
  - unfold Fetcher.value_column at 1. rewrite Hcol. cbn [bind].
    now rewrite (to_numeric_unparsable _ _ _ Hin Hbad).
  - rewrite Hxs. cbn [bind].
    unfold Fetcher.value_column. rewrite Hcol. cbn [bind].
    now rewrite (to_numeric_unparsable _ _ _ Hin Hbad).
Qed.

Lemma unparsable_value_fails_fetch_witness :
  Fetcher.get_census_trade_data Sample.str_to_float
    (Sample.serve
       (Table [Sample.header_exp;
               Sample.cells ["5700"; "CHINA"; "100000000000"; "2024"];
               Sample.cells ["4280"; "GERMANY"; "n/a"; "2024"]])
       (Table [Sample.header_imp]))
    2025
  = Fetcher.mk_fetched [ValueError] Blank.
Proof.
  apply (unparsable_value_fails_fetch
           Sample.str_to_float _ 2025
           (mk_frame Sample.header_exp
                     [Sample.cells ["5700"; "CHINA"; "100000000000"; "2024"];
                      Sample.cells ["4280"; "GERMANY"; "n/a"; "2024"]])
           (mk_frame Sample.header_imp [])
           [Some "100000000000"; Some "n/a"] "n/a").
  - reflexivity.
  - reflexivity.
  - right. left. reflexivity.
  - reflexivity.
  - left. reflexivity.
Defined.

(** ** Edge cases of the two tables *)

Section TableEdgeFacts.
Import Fetcher.

Lemma length_le_width (rows : list (list (option string))) (r : list (option string)) :
  In r rows -> (List.length r <= width rows)%nat.
Proof.
  unfold width. induction rows as [|r' rows IH]; [contradiction|].
  cbn [fold_right]. intros [->|Hin]; [lia|].
  specialize (IH Hin). lia.
Qed.

Lemma make_frame_long_row (h : list (option string)) (rest : payload)
      (r : list (option string)) :
  In r rest -> (List.length h < List.length r)%nat ->
  make_frame (Table (h :: rest)) = Raise ValueError.
Proof.
  intros Hin Hlong. pose proof (length_le_width _ _ Hin) as Hw.
  destruct rest as [|r0 rest']; [contradiction|].
  cbn [make_frame].
  destruct (Nat.eqb_spec (width (r0 :: rest')) (List.length h)) as [Heq|_];
    [lia|reflexivity].
Qed.

Lemma fetch_frame_table (net : network) (q : request) (status : Z) (data : payload) :
  net q = Reply status (Table data) -> ~ (400 <= status < 600)%Z ->
  fetch_frame net q = make_frame (Table data).
Proof.
  intros Hq Hst. unfold fetch_frame. rewrite Hq. cbn [raise_for_status].
  replace ((400 <=? status)%Z && (status <? 600)%Z)%bool with false; [reflexivity|].
  symmetry. apply andb_false_iff.
  destruct (Z.leb_spec 400 status); [right; apply Z.ltb_ge; lia|now left].
Qed.

Lemma column_no_rows (h : list (option string)) (label : string) :
  occurrences label h = 1%nat -> column (mk_frame h []) label = Ok [].
Proof. intros Hone. unfold column. cbn [columns values]. now rewrite Hone. Qed.

End TableEdgeFacts.

(** X9: a data row longer than the header makes the fetch fail: the frame
    is refused with a ValueError, whichever of the two tables it is in (for
    the imports table, once the exports frame is built). *)
Theorem long_row_fails_fetch
        (str_to_float : string -> option float) (net : network) (current_year : Z)
        (status : Z) (h : list (option string)) (rest : payload)
        (r : list (option string)) :
  ~ (400 <= status < 600)%Z ->
  In r rest ->
  (List.length h < List.length r)%nat ->
  net (Fetcher.params_exp (current_year - 1)) = Reply status (Table (h :: rest)) \/
  (exists df, Fetcher.fetch_frame net (Fetcher.params_exp (current_year - 1)) = Ok df) /\
  net (Fetcher.params_imp (current_year - 1)) = Reply status (Table (h :: rest)) ->
  Fetcher.get_census_trade_data str_to_float net current_year
  = Fetcher.mk_fetched [ValueError] Blank.
Proof.
  intros Hst Hin Hlong Hnet.
  unfold Fetcher.get_census_trade_data, Fetcher.try_body.
  destruct Hnet as [Hq|[(df & Hdf) Hq]].
  - rewrite (fetch_frame_table _ _ _ _ Hq Hst), (make_frame_long_row _ _ _ Hin Hlong).
    reflexivity.
  - rewrite Hdf. cbn [bind].
    rewrite (fetch_frame_table _ _ _ _ Hq Hst), (make_frame_long_row _ _ _ Hin Hlong).
    reflexivity.
Qed.

Lemma long_row_fails_fetch_witness :
  Fetcher.get_census_trade_data Sample.str_to_float
    (Sample.serve
       (Table [[Some "CTY_CODE"; Some "CTY_NAME"; Some "ALL_VAL_YR"];
               Sample.cells ["5700"; "CHINA"; "100000000000"; "2024"]])
       (Table [Sample.header_imp]))
    2025
  = Fetcher.mk_fetched [ValueError] Blank.
Proof.
  apply (long_row_fails_fetch
           Sample.str_to_float _ 2025 200
           [Some "CTY_CODE"; Some "CTY_NAME"; Some "ALL_VAL_YR"]
           [Sample.cells ["5700"; "CHINA"; "100000000000"; "2024"]]
           (Sample.cells ["5700"; "CHINA"; "100000000000"; "2024"])).
  - lia.
  - left. reflexivity.
  - cbn. lia.
  - left. reflexivity.
Defined.

(** X10: two replies that carry a header and no data row are not an error:
    when each header has once the labels the fetcher reads (and the new
    column's label at most once), the call reports nothing and returns a frame
    without rows, and the script, finding it empty, shows the unavailable
    page. *)
Theorem header_only_tables_are_unavailable
        (str_to_float : string -> option float) (net : network)
        (now : App.clock) (c : App.cache)
        (status_exp status_imp : Z) (h_exp h_imp : list (option string)) :
  App.fresh c now = None ->
  net (Fetcher.params_exp (App.year now - 1)) = Reply status_exp (Table [h_exp]) ->
  net (Fetcher.params_imp (App.year now - 1)) = Reply status_imp (Table [h_imp]) ->
  ~ (400 <= status_exp < 600)%Z ->
  ~ (400 <= status_imp < 600)%Z ->
  Forall (fun label => Fetcher.occurrences label h_exp = 1%nat) Layout.read_from_exports ->
  Forall (fun label => Fetcher.occurrences label h_imp = 1%nat) Layout.read_from_imports ->
  (Fetcher.occurrences "Exports" h_exp <= 1)%nat ->
  (Fetcher.occurrences "Imports" h_imp <= 1)%nat ->
  Fetcher.get_census_trade_data str_to_float net (App.year now)
  = Fetcher.mk_fetched [] (Trade []) /\
  App.shown (App.main str_to_float net now c) = [] /\
  App.page (App.main str_to_float net now c) = App.Unavailable.
Proof.
  intros Hmiss Hqe Hqi Hse Hsi Hexp Himp Hnew_e Hnew_i.
  inversion Hexp as [|? ? Hval He1]; subst.
  inversion He1 as [|? ? Hcode He2]; subst.
  inversion He2 as [|? ? Hname _]; subst.
  inversion Himp as [|? ? Hval' Hi1]; subst.
  inversion Hi1 as [|? ? Hcode' _]; subst.
  assert (Hget : Fetcher.get_census_trade_data str_to_float net (App.year now)
                 = Fetcher.mk_fetched [] (Trade [])).
  { unfold Fetcher.get_census_trade_data, Fetcher.try_body.
    rewrite (fetch_frame_table _ _ _ _ Hqe Hse), (fetch_frame_table _ _ _ _ Hqi Hsi).
    cbn [Fetcher.make_frame bind].
    unfold Fetcher.process, Fetcher.value_column, Fetcher.assignable,
      Fetcher.select_exp, Fetcher.select_imp.
    rewrite !column_no_rows by assumption. cbn [columns].
    apply Nat.leb_le in Hnew_e, Hnew_i. rewrite Hnew_e, Hnew_i.
    reflexivity. }
  split; [exact Hget|].
  unfold App.main, App.cached_get_census_trade_data.
  rewrite Hmiss, Hget. split; reflexivity.
Qed.

Lemma header_only_tables_are_unavailable_witness :
  App.page (App.main Sample.str_to_float
              (Sample.serve (Table [Sample.header_exp]) (Table [Sample.header_imp]))
              (App.mk_clock 0 2025) None)
  = App.Unavailable.
Proof.
  apply (header_only_tables_are_unavailable
           Sample.str_to_float
           (Sample.serve (Table [Sample.header_exp]) (Table [Sample.header_imp]))
           (App.mk_clock 0 2025) None 200 200 Sample.header_exp Sample.header_imp).
  - reflexivity.
  - reflexivity.
  - reflexivity.
  - lia.
  - lia.
  - repeat constructor.
  - repeat constructor.
  - cbn. lia.
  - cbn. lia.
Defined.

(** ** The left merge (lines 130-135) *)

(** X11: the rows of the left merge are exactly these: for a tariff entry
    that no trade row matches, the entry with no code, no raw name and three
    zeros; for a tariff entry and a trade row that bears its name, the entry
    with the code, raw name and figures of that row, missing figures being
    replaced by 0. *)
Theorem joined_rows_characterised
        (t : list tariff_entry) (rows : list trade_row) (j : joined_row) :
  In j (map Joiner.fill_trade (Joiner.merge_left t rows)) <->
  exists e,
    In e t /\
    ((forall r, In r rows -> Country_Name r <> OStr (t_country_name e)) /\
     j = mk_joined (t_country_name e) (t_tariff_rate e) (t_category e)
                   (t_iso_alpha_3 e) ONaN ONaN 0 0 0
     \/
     exists r,
       In r rows /\ Country_Name r = OStr (t_country_name e) /\
       j = mk_joined (t_country_name e) (t_tariff_rate e) (t_category e)
                     (t_iso_alpha_3 e) (CTY_CODE r) (CTY_NAME r)
                     (Fetcher.fillna_float (Exports r))
                     (Fetcher.fillna_float (Imports r))
                     (Fetcher.fillna_float (Balance r))).
Proof.
  assert (Hmatch : forall e r, Joiner.name_matches e r = true <->
                               Country_Name r = OStr (t_country_name e)).
  { intros e r. unfold Joiner.name_matches.
    destruct (Country_Name r) as [|s|z]; try (split; congruence).
    rewrite String.eqb_eq. split; congruence. }
  split.
  - intros Hin. apply in_join_inv in Hin as (e & He & _ & Hcase).
    exists e. split; [exact He|].
    destruct Hcase as [[-> Hf]|(r & Hr & Hm & ->)].
    + left. split; [|reflexivity].
      intros r Hr Hname. apply Hmatch in Hname.
      assert (Hin : In r (filter (Joiner.name_matches e) rows))
        by (apply filter_In; split; assumption).
      rewrite Hf in Hin. exact Hin.
    + right. exists r. split; [exact Hr|]. split; [now apply Hmatch|reflexivity].
  - intros (e & He & [[Hno ->]|(r & Hr & Hname & ->)]).
    + apply in_map_iff. exists (Joiner.unmatched e). split; [reflexivity|].
      unfold Joiner.merge_left. apply in_flat_map. exists e. split; [exact He|].
      unfold Joiner.merge_left_row. rewrite (no_match_filter rows e Hno). now left.
    + apply in_map_iff. exists (Joiner.matched e r). split; [reflexivity|].
      unfold Joiner.merge_left. apply in_flat_map. exists e. split; [exact He|].
      assert (Hin : In r (filter (Joiner.name_matches e) rows))
        by (apply filter_In; split; [exact Hr|now apply Hmatch]).
      unfold Joiner.merge_left_row.
      destruct (filter (Joiner.name_matches e) rows) as [|r0 ms]; [contradiction|].
      now apply in_map.
Qed.

(** X12: whatever the trade frame holds, no joined row has a NaN among its
    exports, imports and balance. *)
Theorem joined_rows_never_nan
        (t : list tariff_entry) (rows : list trade_row) (out : list joined_row)
        (j : joined_row) :
  Joiner.join t (Trade rows) = Ok out ->
  In j out ->
  is_nan (j_exports j) = false /\
  is_nan (j_imports j) = false /\
  is_nan (j_balance j) = false.
Proof.
  intros Hjoin Hj. injection Hjoin as <-.
  apply in_map_iff in Hj as (x & <- & _).
  cbn. auto using fillna_float_is_number.
Qed.

Lemma joined_rows_never_nan_witness :
  is_nan 7%float = false /\ is_nan 0%float = false /\ is_nan 0%float = false.
Proof.
  apply (joined_rows_never_nan
           [mk_tariff "China" 19.3 "Trade War" "CHN"]
           [mk_trade (OStr "5700") (OStr "CHINA") 7 nan nan (OStr "China")]
           [mk_joined "China" 19.3 "Trade War" "CHN" (OStr "5700") (OStr "CHINA") 7 0 0]
           (mk_joined "China" 19.3 "Trade War" "CHN" (OStr "5700") (OStr "CHINA") 7 0 0)).
  - vm_compute. reflexivity.
  - left. reflexivity.
Defined.

(** ** The script (lines 120-188) *)

Section ScriptFacts.
Import App.

Lemma render_dashboard (f : trade_frame) (out : list joined_row) :
  render f = Dashboard out ->
  exists r rows, f = Trade (r :: rows) /\
                 out = map Joiner.fill_trade
                           (Joiner.merge_left Tariff.get_tariff_data (r :: rows)).
Proof.
  destruct f as [|[|r rows]]; cbn; try discriminate.
  intros [= <-]. eauto.
Qed.

Lemma repeat_max_length {A} (f : A -> nat) (t : list A) :
  (List.length t <= List.length (flat_map (fun e => repeat e (Nat.max 1 (f e))) t))%nat.
Proof.
  induction t as [|e t IH]; cbn [flat_map List.length]; [lia|].
  rewrite length_app, repeat_length. lia.
Qed.

End ScriptFacts.

(** X13: whenever the script draws the dashboard, whether the frame was just
    fetched or served by the cache, the frame the run used has rows, the
    table drawn is the left merge of the tariff table with those rows, and
    it lists every tariff entry, in the order of the tariff table, each one
    once per row of that frame bearing its name and at least once; so it has
    at least 13 rows. *)
Theorem dashboard_lists_every_tariff_entry
        (str_to_float : string -> option float) (net : network)
        (now : App.clock) (c : App.cache)
        (v : Fetcher.fetched) (reqs : list request) (c' : App.cache)
        (out : list joined_row) :
  App.cached_get_census_trade_data str_to_float net now c = (v, reqs, c') ->
  App.page (App.main str_to_float net now c) = App.Dashboard out ->
  exists rows,
    Fetcher.frame v = Trade rows /\
    rows <> [] /\
    out = map Joiner.fill_trade (Joiner.merge_left Tariff.get_tariff_data rows) /\
    map Joiner.tariff_of out
    = flat_map (fun e => repeat e (Nat.max 1 (Joiner.matches rows e)))
               Tariff.get_tariff_data /\
    (forall e, In e Tariff.get_tariff_data ->
               exists j, In j out /\ Joiner.tariff_of j = e) /\
    (13 <= List.length out)%nat.
Proof.
  intros Hcall. unfold App.main. rewrite Hcall. cbn [App.page]. intros Hpage.
  apply render_dashboard in Hpage as (r & rows & Hframe & ->).
  pose proof (tariff_of_merge_left Tariff.get_tariff_data (r :: rows)) as Hmap.
  exists (r :: rows).
  split; [exact Hframe|]. split; [discriminate|]. split; [reflexivity|].
  split; [exact Hmap|]. split.
  - intros e He.
    assert (Hin : In e (map Joiner.tariff_of
                          (map Joiner.fill_trade
                               (Joiner.merge_left Tariff.get_tariff_data (r :: rows))))).
    { rewrite Hmap. apply in_flat_map. exists e. split; [exact He|].
      destruct (Nat.max 1 (Joiner.matches (r :: rows) e)) eqn:Hmax; [lia|].
      now left. }
    apply in_map_iff in Hin as (j & Hj & Hin). eauto.
  - rewrite <- (length_map Joiner.tariff_of), Hmap.
    apply (repeat_max_length (Joiner.matches (r :: rows)) Tariff.get_tariff_data).
Qed.

Lemma dashboard_lists_every_tariff_entry_witness :
  exists rows,
    Trade [mk_trade (OStr "5700") (OStr "CHINA") 1 1 0 (OStr "China")] = Trade rows /\
    rows <> [] /\
    (13 <= List.length
             (map Joiner.fill_trade
                  (Joiner.merge_left Tariff.get_tariff_data rows)))%nat.
Proof.
  destruct (dashboard_lists_every_tariff_entry
              Sample.str_to_float Sample.yearly (App.mk_clock 0 2025) None
              (Fetcher.mk_fetched
                 [] (Trade [mk_trade (OStr "5700") (OStr "CHINA") 1 1 0 (OStr "China")]))
              [Fetcher.params_exp 2024; Fetcher.params_imp 2024]
              (Some (App.mk_entry 0
                       (Fetcher.mk_fetched
                          [] (Trade [mk_trade (OStr "5700") (OStr "CHINA") 1 1 0
                                              (OStr "China")]))))
              (map Joiner.fill_trade
                   (Joiner.merge_left Tariff.get_tariff_data
                      [mk_trade (OStr "5700") (OStr "CHINA") 1 1 0 (OStr "China")])))
    as (rows & Hframe & Hne & Hout & _ & _ & Hlen).
  - vm_compute. reflexivity.
  - vm_compute. reflexivity.
  - exists rows. split; [exact Hframe|]. split; [exact Hne|].
    rewrite <- Hout. exact Hlen.
Defined.

(** X14: when the fetch succeeds on a call that is not served by the cache,
    no error is shown, both requests have been issued, and the page is the
    dashboard over the left merge of the tariff table with the fetched rows
    if there is at least one row, the unavailable page if there is none. *)
Theorem successful_fetch_page
        (str_to_float : string -> option float) (net : network)
        (now : App.clock) (c : App.cache) (rows : list trade_row) :
  App.fresh c now = None ->
  Fetcher.try_body str_to_float net (App.year now) = Ok rows ->
  App.shown (App.main str_to_float net now c) = [] /\
  App.sent (App.main str_to_float net now c)
  = [Fetcher.params_exp (App.year now - 1); Fetcher.params_imp (App.year now - 1)] /\
  App.page (App.main str_to_float net now c)
  = match rows with
    | [] => App.Unavailable
    | _ :: _ =>
        App.Dashboard (map Joiner.fill_trade
                           (Joiner.merge_left Tariff.get_tariff_data rows))
    end.
Proof.
  intros Hmiss Hbody.
  unfold App.main, App.cached_get_census_trade_data, Fetcher.get_census_trade_data,
    Fetcher.requests_issued.
  rewrite Hmiss, Hbody. cbn [App.shown App.sent App.page Fetcher.errors Fetcher.frame].
  split; [reflexivity|]. split.
  - unfold Fetcher.try_body in Hbody.
    destruct (Fetcher.fetch_frame net (Fetcher.params_exp (App.year now - 1)));
      [reflexivity|discriminate].
  - destruct rows; reflexivity.
Qed.

Lemma successful_fetch_page_witness :
  App.shown (App.main Sample.str_to_float Sample.yearly (App.mk_clock 0 2025) None) = [] /\
  App.sent (App.main Sample.str_to_float Sample.yearly (App.mk_clock 0 2025) None)
  = [Fetcher.params_exp 2024; Fetcher.params_imp 2024].
Proof.
  destruct (successful_fetch_page
              Sample.str_to_float Sample.yearly (App.mk_clock 0 2025) None
              [mk_trade (OStr "5700") (OStr "CHINA") 1 1 0 (OStr "China")]
              eq_refl ltac:(vm_compute; reflexivity))
    as (Hshown & Hsent & _).
  split; [exact Hshown|exact Hsent].
Defined.

(** X15: an exports record reaches the dashboard through its normalised
    name: when the reconciliation succeeds, a record whose raw name [s] is
    made of ASCII characters gives the tariff entry named [normalize s] a
    joined row with the record's raw name and its exports value (0 when the
    value is missing). *)
Theorem exports_record_reaches_its_tariff_entry
        (L : list exp_row) (R : list imp_row) (rows : list trade_row)
        (t : list tariff_entry) (out : list joined_row)
        (l : exp_row) (s : string) (e : tariff_entry) :
  Fetcher.reconcile L R = Ok rows ->
  Joiner.join t (Trade rows) = Ok out ->
  In l L -> e_name l = Some s ->
  Unicode.ascii_name s ->
  In e t -> t_country_name e = Names.normalize s ->
  exists j,
    In j out /\ Joiner.tariff_of j = e /\
    j_cty_name j = OStr s /\
    j_exports j = Fetcher.fillna_float (e_exports l).
Proof.
  intros Hrec Hjoin Hl Hs _ He Hname.
  apply reconcile_rows in Hrec. subst rows. injection Hjoin as <-.
  destruct (merge_key_has_exp L R l Hl) as (m & Hm & Hc & Hn & Hx).
  assert (Hrow : In (Fetcher.finish_row m)
                    (map Fetcher.finish_row (Fetcher.merge_outer L R))).
  { apply in_map. apply in_merge_outer. exists (e_code l).
    split; [left; now apply in_map|exact Hm]. }
  exists (Joiner.fill_trade (Joiner.matched e (Fetcher.finish_row m))).
  split.
  - apply joined_rows_characterised. exists e. split; [exact He|].
    right. exists (Fetcher.finish_row m). split; [exact Hrow|].
    split; [|reflexivity].
    cbn. rewrite Hn, Hs, Hname. reflexivity.
  - split; [apply tariff_of_fill_matched|]. cbn. rewrite Hn, Hs, Hx.
    split; [reflexivity|].
    apply fillna_float_not_nan, fillna_float_is_number.
Qed.

Lemma exports_record_reaches_its_tariff_entry_witness :
  exists j,
    In j [mk_joined "South Korea" 0 "FTA Partner" "KOR" (OStr "5800")
                    (OStr "KOREA, SOUTH") 50 0 50] /\
    Joiner.tariff_of j = mk_tariff "South Korea" 0 "FTA Partner" "KOR" /\
    j_cty_name j = OStr "KOREA, SOUTH" /\
    j_exports j = Fetcher.fillna_float 50.
Proof.
  apply (exports_record_reaches_its_tariff_entry
           [mk_exp (Some "5800") (Some "KOREA, SOUTH") 50] []
           [mk_trade (OStr "5800") (OStr "KOREA, SOUTH") 50 0 50 (OStr "South Korea")]
           [mk_tariff "South Korea" 0 "FTA Partner" "KOR"]
           _ (mk_exp (Some "5800") (Some "KOREA, SOUTH") 50) "KOREA, SOUTH").
  - vm_compute. reflexivity.
  - vm_compute. reflexivity.
  - left. reflexivity.
  - reflexivity.
  - vm_compute. repeat constructor.
  - left. reflexivity.
  - reflexivity.
Defined.

(** ** The cache across runs (line 23) *)

(** X16: a failed fetch is cached like any value: for 3600 seconds after a
    call whose fetch failed, every run shows the same error and the
    unavailable page and issues no request, whatever the network would
    answer by then. *)
Theorem failed_fetch_is_cached
        (str_to_float : string -> option float) (net1 net2 : network)
        (now1 now2 : App.clock) (c : App.cache) (e : exn) :
  App.fresh c now1 = None ->
  Fetcher.try_body str_to_float net1 (App.year now1) = Raise e ->
  (App.timer now2 < App.timer now1 + 3600)%Z ->
  App.main str_to_float net2 now2
           (App.cache_after (App.main str_to_float net1 now1 c))
  = App.mk_run [e] App.Unavailable []
               (App.cache_after (App.main str_to_float net1 now1 c)).
Proof.
  intros Hmiss Hraise Hlt.
  assert (Hfirst : App.cache_after (App.main str_to_float net1 now1 c)
                   = Some (App.mk_entry (App.timer now1)
                                        (Fetcher.mk_fetched [e] Blank))).
  { unfold App.main, App.cached_get_census_trade_data,
      Fetcher.get_census_trade_data.
    now rewrite Hmiss, Hraise. }
  rewrite Hfirst.
  unfold App.main, App.cached_get_census_trade_data, App.fresh, App.ttl.
  cbn [App.stored_at App.cached_value].
  rewrite (proj2 (Z.ltb_lt _ _) Hlt). reflexivity.
Qed.

Lemma failed_fetch_is_cached_witness :
  App.main Sample.str_to_float Sample.yearly (App.mk_clock 3599 2025)
           (App.cache_after
              (App.main Sample.str_to_float (fun _ => Unreachable)
                        (App.mk_clock 0 2025) None))
  = App.mk_run [ConnectionError] App.Unavailable []
               (App.cache_after
                  (App.main Sample.str_to_float (fun _ => Unreachable)
                            (App.mk_clock 0 2025) None)).
Proof.
  apply (failed_fetch_is_cached
           Sample.str_to_float (fun _ => Unreachable) Sample.yearly
           (App.mk_clock 0 2025) (App.mk_clock 3599 2025) None ConnectionError).
  - reflexivity.
  - reflexivity.
  - cbn. lia.
Defined.

(** X17: the 3600 seconds count from the call that stored the entry; a call
    served by the cache does not renew it.  After a storing call at [now1]
    and a served call at [now2], a call at 3600 seconds or more past [now1]
    fetches again, however close to [now2] it is. *)
Theorem cache_hit_does_not_renew
        (str_to_float : string -> option float) (net1 net2 net3 : network)
        (now1 now2 now3 : App.clock) (c : App.cache) :
  App.fresh c now1 = None ->
  (App.timer now2 < App.timer now1 + 3600)%Z ->
  (App.timer now1 + 3600 <= App.timer now3)%Z ->
  App.cache_after
    (App.main str_to_float net2 now2
              (App.cache_after (App.main str_to_float net1 now1 c)))
  = App.cache_after (App.main str_to_float net1 now1 c) /\
  App.sent
    (App.main str_to_float net3 now3
       (App.cache_after
          (App.main str_to_float net2 now2
                    (App.cache_after (App.main str_to_float net1 now1 c)))))
  = Fetcher.requests_issued net3 (App.year now3).
Proof.
  intros Hmiss Hlt Hge.
  assert (Hfirst : App.cache_after (App.main str_to_float net1 now1 c)
                   = Some (App.mk_entry (App.timer now1)
                             (Fetcher.get_census_trade_data str_to_float net1
                                                            (App.year now1)))).
  { unfold App.main, App.cached_get_census_trade_data. now rewrite Hmiss. }
  rewrite Hfirst.
  assert (Hsecond : App.cache_after
                      (App.main str_to_float net2 now2
                         (Some (App.mk_entry (App.timer now1)
                                  (Fetcher.get_census_trade_data str_to_float net1
                                                                 (App.year now1)))))
                    = Some (App.mk_entry (App.timer now1)
                              (Fetcher.get_census_trade_data str_to_float net1
                                                             (App.year now1)))).
  { unfold App.main, App.cached_get_census_trade_data, App.fresh, App.ttl.
    cbn [App.stored_at App.cached_value].
    now rewrite (proj2 (Z.ltb_lt _ _) Hlt). }
  rewrite Hsecond. split; [reflexivity|].
  unfold App.main, App.cached_get_census_trade_data, App.fresh, App.ttl.
  cbn [App.stored_at App.cached_value].
  now rewrite (proj2 (Z.ltb_ge _ _) Hge).
Qed.

Lemma cache_hit_does_not_renew_witness :
  App.sent
    (App.main Sample.str_to_float Sample.yearly (App.mk_clock 3600 2025)
       (App.cache_after
          (App.main Sample.str_to_float Sample.yearly (App.mk_clock 3599 2025)
             (App.cache_after
                (App.main Sample.str_to_float Sample.yearly (App.mk_clock 0 2025) None)))))
  = Fetcher.requests_issued Sample.yearly 2025.
Proof.
  apply (cache_hit_does_not_renew
           Sample.str_to_float Sample.yearly Sample.yearly Sample.yearly
           (App.mk_clock 0 2025) (App.mk_clock 3599 2025) (App.mk_clock 3600 2025) None).
  - reflexivity.
  - cbn. lia.
  - cbn. lia.
Defined.

(** ** Title-casing (line 84) *)

(** X18: on a name of ASCII characters, with Unicode's tables on the ASCII
    range, title-casing changes nothing but the case of letters: the result
    has the length of the name, and it equals the name once the letters of
    both are made small. *)
Theorem title_changes_case_only
        (is_cased : N -> bool) (to_title_full : N -> list N)
        (lower_ucs4 : list N -> nat -> N -> list N) (x : list N) :
  Unicode.on_ascii is_cased to_title_full lower_ucs4 ->
  Forall (fun c => (c < 128)%N) x ->
  List.length (Unicode.title is_cased to_title_full lower_ucs4 x) = List.length x /\
  map Unicode.ascii_small (Unicode.title is_cased to_title_full lower_ucs4 x)
  = map Unicode.ascii_small x.
Proof.
  intros Hascii Hx. rewrite (title_ascii_title_case _ _ _ Hascii x Hx).
  unfold Unicode.ascii_title_case. split.
  - now rewrite length_map, length_seq.
  - rewrite map_map.
    transitivity (map Unicode.ascii_small
                      (map (fun i => nth i x 0%N) (seq 0 (List.length x))));
      [|now rewrite map_nth_seq].
    rewrite map_map. apply map_ext_in. intros i Hi. apply in_seq in Hi as [_ Hi]. cbn in Hi.
    assert (Hlt : (nth i x 0 < 256)%N).
    { rewrite Forall_forall in Hx.
      specialize (Hx (nth i x 0%N) (nth_In x 0%N Hi)). lia. }
    destruct (ascii_small_absorbs _ Hlt) as [Hcap Hsmall].
    now destruct (Unicode.ascii_word_start x i).
Qed.

Lemma title_changes_case_only_witness :
  List.length (Unicode.title Names.cp_is_cased Names.to_title_full
                             (fun _ _ c => Names.to_lower_full c)
                             (Names.code_points "KOREA, SOUTH"))
  = List.length (Names.code_points "KOREA, SOUTH") /\
  map Unicode.ascii_small
      (Unicode.title Names.cp_is_cased Names.to_title_full
                     (fun _ _ c => Names.to_lower_full c)
                     (Names.code_points "KOREA, SOUTH"))
  = map Unicode.ascii_small (Names.code_points "KOREA, SOUTH").
Proof.
  apply title_changes_case_only.
  - exact fragment_on_ascii.
  - vm_compute. repeat constructor.
Defined.
